(** * Catalog query and favourites engine of the movie explorer front end

    A shallow embedding of the TypeScript sources

    - [services/movieService.ts]   (query serialisation, [getMovies]),
    - [utils/localStorage.ts]      (the persisted favourites store),
    - [hooks/useFavorites.ts]      (the React hook on top of the store),
    - [pages/MoviesList]           (the paginated list controller),
    - [pages/Favorites]            (hydration of favourite ids),

    followed by the properties established about them.  Platform
    built-ins ([JSON], numbers, configuration constants) are interfaces;
    everything the repository itself defines is a function one can run. *)

From Stdlib Require Import Ascii String DecimalString DecimalPos DecimalZ.
From stdpp Require Import base option list strings gmap sets.

Set Warnings "-register-all".

Local Open Scope string_scope.
Local Open Scope list_scope.

(* ===================================================================== *)
(** * Part I: the program                                                 *)
(* ===================================================================== *)

(** ** JavaScript numbers

    Filter values ([page], [year], [min_rating], ...) are IEEE doubles in
    the source; the code only ever calls [toString] on them and writes
    the literal [1].  They are kept abstract. *)

Class JsNumber := {
  number : Type;
  Number_toString : number → string;   (* Number.prototype.toString() *)
  number_one : number;                 (* the literal 1 *)
}.

(** Decimal rendering of an integer, as [toString] prints an integer-valued
    number: ["0"], ["15"], ["-3"]. *)
Definition Z_toString (z : Z) : string := NilZero.string_of_int (Z.to_int z).

(** Integers as an instance of the number interface. *)
Definition integer_numbers : JsNumber :=
  {| number := Z; Number_toString := Z_toString; number_one := 1%Z |}.

(** ** services/movieService.ts: [getMovies] *)

Module movieService.
Section with_numbers.
Context {Num : JsNumber}.

  (** The values a [MovieFilters] property holds at run time. *)
Inductive JsValue :=
  | VUndefined
  | VNull
  | VNumber (n : number)
  | VString (s : string).

  (** A [MovieFilters] object: its own enumerable properties in insertion
      order, which is the order [Object.entries] walks them in. *)
Definition MovieFilters := list (string * JsValue).

Definition Object_entries (filters : MovieFilters) : list (string * JsValue) :=
    filters.

  (** [value !== undefined], [value !== null], [value !== ''] *)
Definition not_undefined (value : JsValue) : bool :=
    match value with VUndefined => false | _ => true end.
Definition not_null (value : JsValue) : bool :=
    match value with VNull => false | _ => true end.
Definition not_empty_string (value : JsValue) : bool :=
    match value with VString "" => false | _ => true end.

  (** [value.toString()], reached only for numbers and strings. *)
Definition toString (value : JsValue) : string :=
    match value with
    | VNumber n => Number_toString n
    | VString s => s
    | VUndefined => "undefined"
    | VNull => "null"
    end.

  (** [URLSearchParams]: an ordered list of name/value pairs. *)
Definition URLSearchParams := list (string * string).

Definition URLSearchParams_append
      (params : URLSearchParams) (name value : string) : URLSearchParams :=
    params ++ [(name, value)].

  (** The body of [getMovies] up to [params.toString()]. *)
Definition getMovies_params (filters : option MovieFilters) : URLSearchParams :=
    match filters with
    | Some filters =>
        foldl (λ params '(key, value),
                 if not_undefined value && not_null value && not_empty_string value
                 then URLSearchParams_append params key (toString value)
                 else params)
              [] (Object_entries filters)
    | None => []
    end.

  (** [application/x-www-form-urlencoded] serialisation of one byte. *)
Definition hex_digit (n : N) : ascii :=
    match n with
    | 0 => "0" | 1 => "1" | 2 => "2" | 3 => "3" | 4 => "4" | 5 => "5"
    | 6 => "6" | 7 => "7" | 8 => "8" | 9 => "9" | 10 => "A" | 11 => "B"
    | 12 => "C" | 13 => "D" | 14 => "E" | _ => "F"
    end%N%char.

Definition urlencoded_keeps (c : ascii) : bool :=
    let n := N_of_ascii c in
    ((48 <=? n) && (n <=? 57) || (65 <=? n) && (n <=? 90)
     || (97 <=? n) && (n <=? 122)
     || (n =? 42) || (n =? 45) || (n =? 46) || (n =? 95))%N.

Fixpoint urlencode (s : string) : string :=
  match s with
  | EmptyString => EmptyString
  | String c rest =>
      if urlencoded_keeps c then String c (urlencode rest)
      else if Ascii.eqb c " "%char then String "+"%char (urlencode rest)
      else String "%"%char
             (String (hex_digit (N_of_ascii c / 16))
                (String (hex_digit (N_of_ascii c mod 16)) (urlencode rest)))
  end.

  (** [params.toString()] *)
Fixpoint URLSearchParams_toString (params : URLSearchParams) : string :=
    match params with
    | [] => ""
    | [(name, value)] => urlencode name +:+ "=" +:+ urlencode value
    | (name, value) :: rest =>
        urlencode name +:+ "=" +:+ urlencode value +:+ "&"
          +:+ URLSearchParams_toString rest
    end.

  (** The url handed to [apiClient.get]. *)
Definition getMovies_url (filters : option MovieFilters) : string :=
    let queryString := URLSearchParams_toString (getMovies_params filters) in
    "/movies" +:+ (if decide (queryString = "") then "" else "?" +:+ queryString).

  (** [`/movies/${id}`] of [getMovieById]. *)
Definition getMovieById_url (id : Z) : string := "/movies/" +:+ Z_toString id.

End with_numbers.
Arguments JsValue : clear implicits.
Arguments MovieFilters : clear implicits.
End movieService.

(** ** Completion records and state passing

    Effectful code threads a state and either returns normally or throws;
    [try_catch] is the [try { } catch (error) { }] statement. *)

Inductive completion (A : Type) : Type :=
| Normal (a : A)
| Throw (error : string).
Arguments Normal {A} a.
Arguments Throw {A} error.

Definition M (S A : Type) : Type := S → completion A * S.

Definition ret {S A} (a : A) : M S A := λ s, (Normal a, s).

Definition throw {S A} (error : string) : M S A := λ s, (Throw error, s).

Definition bind {S A B} (c : M S A) (k : A → M S B) : M S B :=
  λ s, match c s with
       | (Normal a, s') => k a s'
       | (Throw error, s') => (Throw error, s')
       end.

Definition try_catch {S A} (body : M S A) (handler : string → M S A) : M S A :=
  λ s, match body s with
       | (Normal a, s') => (Normal a, s')
       | (Throw error, s') => handler error s'
       end.

Notation "x <- c ;; k" := (bind c (λ x, k))
  (at level 100, c at next level, right associativity, only parsing).
Notation "c ;;; k" := (bind c (λ _, k))
  (at level 100, right associativity, only parsing).

(** ** JSON values and the run-time environment *)

(** What [JSON.parse] can produce.  Favourite ids are integers. *)
Inductive JsonValue :=
| JNull
| JBool (b : bool)
| JNumber (n : Z)
| JString (s : string)
| JArray (elements : list JsonValue)
| JObject (properties : list (string * JsonValue)).

(** The array [[id1, id2, ...]] of numbers. *)
Definition number_array (ids : list Z) : JsonValue := JArray (JNumber <$> ids).

(** The built-ins and configuration the favourites code runs against:
    the storage key of [config/constants], and [JSON], of which only the
    round trip on arrays of ids and the non-emptiness of an encoded array
    are assumed. *)
Class Runtime := {
  FAVORITES_STORAGE_KEY : string;
  JSON_parse : string → option JsonValue;        (* [None]: SyntaxError *)
  JSON_stringify : JsonValue → string;
  JSON_parse_stringify : ∀ ids : list Z,
    JSON_parse (JSON_stringify (number_array ids)) = Some (number_array ids);
  JSON_stringify_array : ∀ elements, JSON_stringify (JArray elements) ≠ "";
}.

(** The world outside the program: the [localStorage] map, the console,
    and an oracle saying which of the coming [localStorage] calls throw
    (one flag per call; an exhausted oracle means no further failure). *)
Record World := {
  localStorage : gmap string string;
  faults : list bool;
  console : list (string * string);
}.

Definition with_localStorage (m : gmap string string) (w : World) : World :=
  {| localStorage := m; faults := faults w; console := console w |}.

Definition with_faults (rest : list bool) (w : World) : World :=
  {| localStorage := localStorage w; faults := rest; console := console w |}.

Definition logged (message error : string) (w : World) : World :=
  {| localStorage := localStorage w; faults := faults w;
     console := console w ++ [(message, error)] |}.

(** Whether the coming storage call fails, and the world after asking. *)
Definition next_fault (w : World) : bool * World :=
  match faults w with
  | [] => (false, w)
  | failed :: rest => (failed, with_faults rest w)
  end.

Definition storage_call {A} (error : string) (action : M World A) : M World A :=
  λ w, let '(failed, w) := next_fault w in
       if failed then (Throw error, w) else action w.

Definition localStorage_getItem (key : string) : M World (option string) :=
  storage_call "SecurityError" (λ w, (Normal (localStorage w !! key), w)).

Definition localStorage_setItem (key value : string) : M World () :=
  storage_call "QuotaExceededError"
    (λ w, (Normal (), with_localStorage (<[key := value]> (localStorage w)) w)).

Definition localStorage_removeItem (key : string) : M World () :=
  storage_call "SecurityError"
    (λ w, (Normal (), with_localStorage (delete key (localStorage w)) w)).

Definition console_error (message error : string) : M World () :=
  λ w, (Normal (), logged message error w).

(** ** Array methods on a value of static type [number[]]

    The static type is erased: the receiver is whatever [JSON.parse]
    returned. *)

(** [id === movieId] for an element and a number. *)
Global Instance is_number_dec (v : JsonValue) (movieId : Z) :
  Decision (v = JNumber movieId).
Proof.
  destruct v as [| |n| | |]; try (right; discriminate).
  destruct (decide (n = movieId)) as [->|Hne]; [left; reflexivity|].
  right; intros [= ?]; contradiction.
Defined.

(** [String.prototype.includes] *)
Fixpoint String_includes (s pattern : string) : bool :=
  String.prefix pattern s
  || match s with
     | EmptyString => false
     | String _ rest => String_includes rest pattern
     end.

Definition code_points (s : string) : list JsonValue :=
  (λ c, JString (String c EmptyString)) <$> list_ascii_of_string s.

(** [favorites.includes(movieId)] *)
Definition includes {S} (favorites : JsonValue) (movieId : Z) : M S bool :=
  match favorites with
  | JArray elements => ret (bool_decide (Exists (λ id, id = JNumber movieId) elements))
  | JString s => ret (String_includes s (Z_toString movieId))
  | _ => throw "TypeError"
  end.

(** [[...favorites, movieId]] *)
Definition spread_with {S} (favorites : JsonValue) (movieId : Z) : M S JsonValue :=
  match favorites with
  | JArray elements => ret (JArray (elements ++ [JNumber movieId]))
  | JString s => ret (JArray (code_points s ++ [JNumber movieId]))
  | _ => throw "TypeError"
  end.

(** [favorites.filter((id) => id !== movieId)] *)
Definition filter_out {S} (favorites : JsonValue) (movieId : Z) : M S JsonValue :=
  match favorites with
  | JArray elements => ret (JArray (filter (λ id, id ≠ JNumber movieId) elements))
  | _ => throw "TypeError"
  end.

(** ** utils/localStorage.ts *)

Module utils.
Section with_runtime.
Context {R : Runtime}.

Definition getFavorites : M World JsonValue :=
  try_catch
    (favorites <- localStorage_getItem FAVORITES_STORAGE_KEY ;;
     match favorites with
     | Some text =>
         if decide (text = "") then ret (JArray [])
         else match JSON_parse text with
              | Some value => ret value
              | None => throw "SyntaxError"
              end
     | None => ret (JArray [])
     end)
    (λ error,
       console_error "Error reading favorites from localStorage:" error ;;;
       ret (JArray [])).

Definition saveFavorites (favorites : JsonValue) : M World () :=
  try_catch
    (localStorage_setItem FAVORITES_STORAGE_KEY (JSON_stringify favorites))
    (λ error, console_error "Error saving favorites to localStorage:" error).

Definition addToFavorites (movieId : Z) : M World JsonValue :=
  favorites <- getFavorites ;;
  present <- includes favorites movieId ;;
  if negb present then
    newFavorites <- spread_with favorites movieId ;;
    saveFavorites newFavorites ;;;
    ret newFavorites
  else ret favorites.

Definition removeFromFavorites (movieId : Z) : M World JsonValue :=
  favorites <- getFavorites ;;
  newFavorites <- filter_out favorites movieId ;;
  saveFavorites newFavorites ;;;
  ret newFavorites.

Definition isFavorite (movieId : Z) : M World bool :=
  favorites <- getFavorites ;;
  includes favorites movieId.

Definition clearFavorites : M World () :=
  try_catch
    (localStorage_removeItem FAVORITES_STORAGE_KEY)
    (λ error, console_error "Error clearing favorites from localStorage:" error).

End with_runtime.
End utils.

(** ** hooks/useFavorites.ts *)

Module useFavorites.
Section with_runtime.
Context {R : Runtime}.

(** A component that called the hook: its [favorites] state next to the
    world it runs in. *)
Record Component := {
  world : World;
  favorites : JsonValue;
}.

Definition lift {A} (c : M World A) : M Component A :=
  λ s, let '(r, w) := c (world s) in (r, {| world := w; favorites := favorites s |}).

Definition setFavorites (value : JsonValue) : M Component () :=
  λ s, (Normal (), {| world := world s; favorites := value |}).

(** [useState<number[]>([])] *)
Definition initial (w : World) : Component := {| world := w; favorites := JArray [] |}.

(** The mount effect: [setFavorites(getFavorites())]. *)
Definition load_on_mount : M Component () :=
  loaded <- lift utils.getFavorites ;;
  setFavorites loaded.

Definition addToFavorites (movieId : Z) : M Component () :=
  newFavorites <- lift (utils.addToFavorites movieId) ;;
  setFavorites newFavorites.

Definition removeFromFavorites (movieId : Z) : M Component () :=
  newFavorites <- lift (utils.removeFromFavorites movieId) ;;
  setFavorites newFavorites.

Definition toggleFavorite (movieId : Z) : M Component () :=
  present <- lift (utils.isFavorite movieId) ;;
  if present then removeFromFavorites movieId
  else addToFavorites movieId.

Definition isFavorite (movieId : Z) : M Component bool :=
  λ s, includes (favorites s) movieId s.

Definition clearFavorites : M Component () :=
  lift utils.clearFavorites ;;;
  setFavorites (JArray []).

End with_runtime.
End useFavorites.

(** ** Remote collaborator: entities, responses, failures

    [apiClient] (services/api) is the boundary: a call it made either is
    fulfilled with a response body or is rejected with an error. *)

(** The part of a movie record the pages look at. *)
Record Movie := {
  movie_id : Z;
  movie_title : string;
}.

(** The only field of [PaginationMeta] that [MoviesList] reads. *)
Record PaginationMeta := {
  total_pages : Z;
}.

(** Body of [GET /movies]; a missing [data] or [meta] is [None]. *)
Record PaginatedResponse := {
  data : option (list Movie);
  meta : option PaginationMeta;
}.

(** Body of [GET /movies/{id}]: the bare record or the
    [{ success, data }] envelope. *)
Inductive ApiObject :=
| Plain (movie : Movie)
| Envelope (success : bool) (payload : option Movie).

(** A rejection reason, read through [(err as Error).message]. *)
Record JsError := {
  message : option string;
}.

(** [err.message || fallback] *)
Definition message_or (err : JsError) (fallback : string) : string :=
  match message err with
  | Some text => if decide (text = "") then fallback else text
  | None => fallback
  end.

Inductive Settlement (A : Type) : Type :=
| Fulfilled (value : A)
| Rejected (err : JsError).
Arguments Fulfilled {A} value.
Arguments Rejected {A} err.

(** ** pages/MoviesList *)

Module MoviesList.
Import movieService.
Section with_numbers.
Context {Num : JsNumber}.
Variable DEFAULT_PAGE_SIZE : number.   (* config/constants *)

(** A filters object on the heap: [useEffect] compares its dependency by
    identity ([Object.is]), not by content. *)
Record FiltersObject := {
  identity : nat;
  props : MovieFilters Num;
}.

Record State := {
  movies : list Movie;
  loading : bool;
  error : option string;
  totalPages : Z;
  filters : FiltersObject;
  next_identity : nat;      (* allocator of object identities *)
  issued : list string;     (* urls given to [apiClient.get], oldest first;
                               a request is named by its position *)
  pending : list nat;       (* requests still in flight *)
}.

Definition setMovies (value : list Movie) (s : State) : State :=
  {| movies := value; loading := loading s; error := error s;
     totalPages := totalPages s; filters := filters s;
     next_identity := next_identity s; issued := issued s; pending := pending s |}.

Definition setLoading (value : bool) (s : State) : State :=
  {| movies := movies s; loading := value; error := error s;
     totalPages := totalPages s; filters := filters s;
     next_identity := next_identity s; issued := issued s; pending := pending s |}.

Definition setError (value : option string) (s : State) : State :=
  {| movies := movies s; loading := loading s; error := value;
     totalPages := totalPages s; filters := filters s;
     next_identity := next_identity s; issued := issued s; pending := pending s |}.

Definition setTotalPages (value : Z) (s : State) : State :=
  {| movies := movies s; loading := loading s; error := error s;
     totalPages := value; filters := filters s;
     next_identity := next_identity s; issued := issued s; pending := pending s |}.

(** [apiClient.get(url)]: the call goes out and stays in flight. *)
Definition apiClient_get (url : string) (s : State) : State :=
  {| movies := movies s; loading := loading s; error := error s;
     totalPages := totalPages s; filters := filters s;
     next_identity := next_identity s;
     issued := issued s ++ [url];
     pending := pending s ++ [length (issued s)] |}.

(** [fetchMovies] up to its [await]. *)
Definition fetchMovies_start (s : State) : State :=
  apiClient_get (getMovies_url (Some (props (filters s))))
    (setError None (setLoading true s)).

(** [response.meta?.total_pages || 1] *)
Definition total_pages_or_1 (response : PaginatedResponse) : Z :=
  match meta response with
  | Some m => if decide (total_pages m = 0%Z) then 1%Z else total_pages m
  | None => 1%Z
  end.

(** [fetchMovies] after its [await]: the [try] tail, the [catch] and the
    [finally].  Nothing here looks at which request is being resumed. *)
Definition fetchMovies_resume (o : Settlement PaginatedResponse) (s : State) : State :=
  match o with
  | Fulfilled response =>
      setLoading false
        (setTotalPages (total_pages_or_1 response)
           (setMovies (default [] (data response)) s))
  | Rejected err =>
      setLoading false (setError (Some (message_or err "Failed to load movies")) s)
  end.

(** [setFilters(obj)] followed by the re-render: the effect with
    dependency [[filters]] runs when the identity changed. *)
Definition setFilters (obj : FiltersObject) (s : State) : State :=
  if decide (identity obj = identity (filters s)) then s
  else fetchMovies_start
         {| movies := movies s; loading := loading s; error := error s;
            totalPages := totalPages s; filters := obj;
            next_identity := next_identity s; issued := issued s;
            pending := pending s |}.

(** An object literal allocates a fresh object. *)
Definition new_object (properties : MovieFilters Num) (s : State) : FiltersObject * State :=
  ({| identity := next_identity s; props := properties |},
   {| movies := movies s; loading := loading s; error := error s;
      totalPages := totalPages s; filters := filters s;
      next_identity := S (next_identity s); issued := issued s;
      pending := pending s |}).

(** [{ ...properties, key: value }] *)
Fixpoint with_property (properties : MovieFilters Num) (key : string)
    (value : JsValue Num) : MovieFilters Num :=
  match properties with
  | [] => [(key, value)]
  | (k, v) :: rest =>
      if decide (k = key) then (key, value) :: rest
      else (k, v) :: with_property rest key value
  end.

(** [handleFiltersChange]: the child component passes a fresh literal. *)
Definition handleFiltersChange (newFilters : MovieFilters Num) (s : State) : State :=
  let '(obj, s) := new_object newFilters s in
  setFilters obj s.

(** [setFilters({ ...filters, page })] *)
Definition handlePageChange (page : number) (s : State) : State :=
  let '(obj, s) := new_object (with_property (props (filters s)) "page" (VNumber page)) s in
  setFilters obj s.

(** [onRetry={() => setFilters({ ...filters })}] *)
Definition onRetry (s : State) : State :=
  let '(obj, s) := new_object (props (filters s)) s in
  setFilters obj s.

Inductive View :=
| LoadingSpinner
| ErrorMessage (text : string)
| ListPage (busy : bool) (shown : list Movie) (pagination : bool).

Definition render (s : State) : View :=
  if loading s && bool_decide (length (movies s) = 0) then LoadingSpinner
  else match error s with
       | Some text =>
           if decide (text = "") then
             ListPage (loading s) (movies s) (bool_decide (1 < totalPages s)%Z)
           else ErrorMessage text
       | None => ListPage (loading s) (movies s) (bool_decide (1 < totalPages s)%Z)
       end.

(** First render and first run of the effect. *)
Definition mount : State :=
  fetchMovies_start
    {| movies := []; loading := true; error := None; totalPages := 1;
       filters := {| identity := 0;
                     props := [("page", VNumber number_one);
                               ("page_size", VNumber DEFAULT_PAGE_SIZE)] |};
       next_identity := 1; issued := []; pending := [] |}.

(** What can happen to a mounted list: the user acts on what is rendered,
    or an in-flight request settles. *)
Inductive Event :=
| FiltersChanged (newFilters : MovieFilters Num)
| PageChanged (page : number)
| RetryClicked
| Settled (request : nat) (o : Settlement PaginatedResponse).

Definition settle (request : nat) (o : Settlement PaginatedResponse) (s : State)
    : option State :=
  if decide (request ∈ pending s) then
    Some (fetchMovies_resume o
            {| movies := movies s; loading := loading s; error := error s;
               totalPages := totalPages s; filters := filters s;
               next_identity := next_identity s; issued := issued s;
               pending := filter (λ r, r ≠ request) (pending s) |})
  else None.

Definition step (s : State) (e : Event) : option State :=
  match e with
  | FiltersChanged newFilters =>
      match render s with
      | ListPage _ _ _ => Some (handleFiltersChange newFilters s)
      | _ => None
      end
  | PageChanged page =>
      match render s with
      | ListPage false (_ :: _) true => Some (handlePageChange page s)
      | _ => None
      end
  | RetryClicked =>
      match render s with
      | ErrorMessage _ => Some (onRetry s)
      | _ => None
      end
  | Settled request o => settle request o s
  end.

Fixpoint run (s : State) (events : list Event) : option State :=
  match events with
  | [] => Some s
  | e :: rest => match step s e with Some s' => run s' rest | None => None end
  end.

(** The request issued last, the one for the current filters. *)
Definition latest_request (s : State) : nat := pred (length (issued s)).

End with_numbers.
End MoviesList.

(** ** pages/Favorites *)

Module Favorites.
Import movieService.

Record State := {
  favoriteMovies : list ApiObject;
  loading : bool;
  error : option string;
  issued : list string;     (* urls given to [apiClient.get], oldest first *)
}.

Definition setFavoriteMovies (value : list ApiObject) (s : State) : State :=
  {| favoriteMovies := value; loading := loading s; error := error s;
     issued := issued s |}.

Definition setLoading (value : bool) (s : State) : State :=
  {| favoriteMovies := favoriteMovies s; loading := value; error := error s;
     issued := issued s |}.

Definition setError (value : option string) (s : State) : State :=
  {| favoriteMovies := favoriteMovies s; loading := loading s; error := value;
     issued := issued s |}.

(** [useState] initial values. *)
Definition initial : State :=
  {| favoriteMovies := []; loading := true; error := None; issued := [] |}.

(** [favorites.map((id) => movieService.getMovieById(id))]: one call per id. *)
Definition getMovieById_all (favorites : list Z) (s : State) : State :=
  {| favoriteMovies := favoriteMovies s; loading := loading s; error := error s;
     issued := issued s ++ (getMovieById_url <$> favorites) |}.

(** [Promise.all]: each promise comes with the instant it settles at.  The
    aggregate rejects with the reason of the earliest rejection, and
    otherwise fulfils with all values in the order of the promises. *)
Fixpoint earliest_rejection {A} (promises : list (nat * Settlement A))
    : option (nat * JsError) :=
  match promises with
  | [] => None
  | (t, Rejected err) :: rest =>
      match earliest_rejection rest with
      | Some (t', err') => if decide (t' < t) then Some (t', err') else Some (t, err)
      | None => Some (t, err)
      end
  | (_, Fulfilled _) :: rest => earliest_rejection rest
  end.

Definition fulfilled_values {A} (promises : list (nat * Settlement A)) : list A :=
  omap (λ p, match p.2 with Fulfilled value => Some value | Rejected _ => None end)
       promises.

Definition Promise_all {A} (promises : list (nat * Settlement A)) : Settlement (list A) :=
  match earliest_rejection promises with
  | Some (_, err) => Rejected err
  | None => Fulfilled (fulfilled_values promises)
  end.

(** [(response as any).data || response] *)
Definition data_or_self (response : ApiObject) : ApiObject :=
  match response with
  | Envelope _ (Some movie) => Plain movie
  | _ => response
  end.

(** [fetchFavoriteMovies] after its [await]. *)
Definition fetchFavoriteMovies_resume
    (responses : Settlement (list ApiObject)) (s : State) : State :=
  match responses with
  | Fulfilled responses =>
      setLoading false (setFavoriteMovies (data_or_self <$> responses) s)
  | Rejected err =>
      setLoading false
        (setError (Some (message_or err "Failed to load favorite movies")) s)
  end.

(** One run of the effect for the given [favorites], the requests it
    makes settling as [promises] says. *)
Definition fetchFavoriteMovies (favorites : list Z)
    (promises : list (nat * Settlement ApiObject)) (s : State) : State :=
  if decide (length favorites = 0) then setLoading false s
  else
    let s := setError None (setLoading true s) in
    let s := getMovieById_all favorites s in
    fetchFavoriteMovies_resume (Promise_all promises) s.

(** The second half of [handleClearAll], once the hook's [clearFavorites]
    has run. *)
Definition handleClearAll (s : State) : State := setFavoriteMovies [] s.

Inductive View :=
| LoadingSpinner
| ErrorMessage (text : string)
| NoFavoritesYet
| Grid (shown : list ApiObject).

Definition render (s : State) : View :=
  if loading s then LoadingSpinner
  else match error s with
       | Some text =>
           if decide (text = "") then
             (if decide (length (favoriteMovies s) = 0) then NoFavoritesYet
              else Grid (favoriteMovies s))
           else ErrorMessage text
       | None =>
           if decide (length (favoriteMovies s) = 0) then NoFavoritesYet
           else Grid (favoriteMovies s)
       end.

End Favorites.

(** ** A reference runtime

    [JSON] is a built-in of the platform.  This small codec implements the
    documents the favourites store writes (flat arrays of integers) and
    the scalars [null], [true], [false] and integers; it serves to run
    the store on concrete worlds. *)

Module reference.

Fixpoint join (separator : string) (items : list string) : string :=
  match items with
  | [] => ""
  | [item] => item
  | item :: rest => item +:+ separator +:+ join separator rest
  end.

Definition quoted (s : string) : string :=
  String (ascii_of_nat 34) (s +:+ String (ascii_of_nat 34) EmptyString).

Fixpoint stringify (value : JsonValue) : string :=
  match value with
  | JNull => "null"
  | JBool true => "true"
  | JBool false => "false"
  | JNumber n => Z_toString n
  | JString s => quoted s
  | JArray elements => "[" +:+ join "," (stringify <$> elements) +:+ "]"
  | JObject properties =>
      "{" +:+ join "," ((λ kv, quoted kv.1 +:+ ":" +:+ stringify kv.2) <$> properties)
          +:+ "}"
  end.

(** An integer literal in canonical form. *)
Definition parse_integer (text : string) : option Z :=
  match NilZero.int_of_string text with
  | Some d => if decide (Z_toString (Z.of_int d) = text) then Some (Z.of_int d) else None
  | None => None
  end.

(** The items of an array body, up to the closing bracket that must end
    the text; [item] is the part of the current item read so far. *)
Fixpoint split_items (text item : string) : option (list string) :=
  match text with
  | EmptyString => None
  | String c rest =>
      if Ascii.eqb c "]"%char then
        (if decide (rest = "") then Some [item] else None)
      else if Ascii.eqb c ","%char then cons item <$> split_items rest ""
      else split_items rest (item +:+ String c EmptyString)
  end.

Definition parse (text : string) : option JsonValue :=
  if decide (text = "null") then Some JNull
  else if decide (text = "true") then Some (JBool true)
  else if decide (text = "false") then Some (JBool false)
  else if decide (text = "[]") then Some (JArray [])
  else match text with
       | String "["%char body =>
           items ← split_items body "";
           ids ← mapM parse_integer items;
           Some (number_array ids)
       | _ => JNumber <$> parse_integer text
       end.

(** A text without the two characters that delimit array items. *)
Fixpoint plain (s : string) : Prop :=
  match s with
  | EmptyString => True
  | String c rest => c ≠ ","%char ∧ c ≠ "]"%char ∧ plain rest
  end.

End reference.

(** ** components/MovieFilters

    The handlers of the filter panel.  Each builds the object it hands to
    [onFiltersChange] from the [filters] prop and from the panel's own
    state ([searchTerm], [ratingRange]) or the event's value, which are
    arguments here.  [parseInt] is the built-in. *)

Module MovieFiltersPanel.
Import movieService MoviesList.
Section with_numbers.
Context {Num : JsNumber}.
Variable parseInt : string → number.

(** [filters.key]: [undefined] when the object has no such property. *)
Fixpoint property (filters : MovieFilters Num) (key : string) : JsValue Num :=
  match filters with
  | [] => VUndefined
  | (k, v) :: rest => if decide (k = key) then v else property rest key
  end.

(** [{ ...filters, search: searchTerm, page: 1 }] *)
Definition handleSearchSubmit (filters : MovieFilters Num) (searchTerm : string)
    : MovieFilters Num :=
  with_property (with_property filters "search" (VString searchTerm))
    "page" (VNumber number_one).

Definition handleGenreChange (filters : MovieFilters Num) (value : string)
    : MovieFilters Num :=
  with_property (with_property filters "genre" (VString value))
    "page" (VNumber number_one).

Definition handleDirectorChange (filters : MovieFilters Num) (value : string)
    : MovieFilters Num :=
  with_property (with_property filters "director" (VString value))
    "page" (VNumber number_one).

Definition handleActorChange (filters : MovieFilters Num) (value : string)
    : MovieFilters Num :=
  with_property (with_property filters "actor" (VString value))
    "page" (VNumber number_one).

(** [const year = e.target.value ? parseInt(e.target.value) : undefined] *)
Definition handleYearChange (filters : MovieFilters Num) (value : string)
    : MovieFilters Num :=
  let year := if decide (value = "") then VUndefined else VNumber (parseInt value) in
  with_property (with_property filters "year" year) "page" (VNumber number_one).

Definition handleRatingCommitted (filters : MovieFilters Num)
    (ratingRange : number * number) : MovieFilters Num :=
  with_property
    (with_property (with_property filters "min_rating" (VNumber ratingRange.1))
       "max_rating" (VNumber ratingRange.2))
    "page" (VNumber number_one).

(** [{ page: 1, page_size: filters.page_size }] *)
Definition handleClearFilters (filters : MovieFilters Num) : MovieFilters Num :=
  [("page", VNumber number_one); ("page_size", property filters "page_size")].

(** What the user can do on the movies page: the panel's [filters] prop
    is the page's [filters] state, its [onFiltersChange] the page's
    [handleFiltersChange]. *)
Inductive Action :=
| SearchSubmitted (searchTerm : string)
| GenreChosen (value : string)
| DirectorChosen (value : string)
| ActorChosen (value : string)
| YearTyped (value : string)
| RatingCommitted (ratingRange : number * number)
| FiltersCleared
| PageChosen (page : number)
| RetryPressed
| ResponseArrived (request : nat) (o : Settlement PaginatedResponse).

Definition event_of (s : State) (a : Action) : Event :=
  match a with
  | SearchSubmitted searchTerm =>
      FiltersChanged (handleSearchSubmit (props (filters s)) searchTerm)
  | GenreChosen value => FiltersChanged (handleGenreChange (props (filters s)) value)
  | DirectorChosen value =>
      FiltersChanged (handleDirectorChange (props (filters s)) value)
  | ActorChosen value => FiltersChanged (handleActorChange (props (filters s)) value)
  | YearTyped value => FiltersChanged (handleYearChange (props (filters s)) value)
  | RatingCommitted ratingRange =>
      FiltersChanged (handleRatingCommitted (props (filters s)) ratingRange)
  | FiltersCleared => FiltersChanged (handleClearFilters (props (filters s)))
  | PageChosen page => PageChanged page
  | RetryPressed => RetryClicked
  | ResponseArrived request o => Settled request o
  end.

Fixpoint interact (s : State) (actions : list Action) : option State :=
  match actions with
  | [] => Some s
  | a :: rest =>
      match step s (event_of s a) with
      | Some s' => interact s' rest
      | None => None
      end
  end.

End with_numbers.
End MovieFiltersPanel.

(** ** pages/MovieDetail

    [useParams] gives the route's id, or nothing; [parseInt] is the
    built-in ([None] for [NaN]). *)

Module MovieDetail.
Import movieService.
Section with_parseInt.
Variable parseInt : string → option Z.

Record State := {
  movie : option ApiObject;
  loading : bool;
  error : option string;
  issued : list string;     (* urls given to [apiClient.get], oldest first *)
}.

Definition setMovie (value : option ApiObject) (s : State) : State :=
  {| movie := value; loading := loading s; error := error s; issued := issued s |}.

Definition setLoading (value : bool) (s : State) : State :=
  {| movie := movie s; loading := value; error := error s; issued := issued s |}.

Definition setError (value : option string) (s : State) : State :=
  {| movie := movie s; loading := loading s; error := value; issued := issued s |}.

(** [useState] initial values. *)
Definition initial : State :=
  {| movie := None; loading := true; error := None; issued := [] |}.

(** [`/movies/${id}`] for the number [parseInt] returned. *)
Definition getMovieById_parsed (id : option Z) : string :=
  match id with
  | Some n => getMovieById_url n
  | None => "/movies/NaN"
  end.

(** One run of the effect for the route's [id], the request it makes
    settling as [o] says. *)
Definition fetchMovie (id : option string) (o : Settlement ApiObject) (s : State) : State :=
  match id with
  | None => s
  | Some text =>
      if decide (text = "") then s
      else
        let s := setError None (setLoading true s) in
        let s := {| movie := movie s; loading := loading s; error := error s;
                    issued := issued s ++ [getMovieById_parsed (parseInt text)] |} in
        match o with
        | Fulfilled data => setLoading false (setMovie (Some data) s)
        | Rejected err =>
            setLoading false
              (setError (Some (message_or err "Failed to load movie details")) s)
        end
  end.

Inductive View :=
| LoadingSpinner
| ErrorMessage (text : string)
| Details (shown : Movie)
| RenderThrows.

(** [error || 'Movie not found'] *)
Definition error_or_not_found (s : State) : string :=
  match error s with
  | Some text => if decide (text = "") then "Movie not found" else text
  | None => "Movie not found"
  end.

(** The page body reads the fields of [movie]; on an object that is not a
    movie, a [{ success, data }] envelope, [movie.rating] is [undefined]
    and [movie.rating.toFixed(1)] throws a [TypeError] while rendering. *)
Definition render_details (shown : ApiObject) : View :=
  match shown with
  | Plain movie => Details movie
  | Envelope _ _ => RenderThrows
  end.

Definition render (s : State) : View :=
  if loading s then LoadingSpinner
  else match error s, movie s with
       | Some text, Some shown =>
           if decide (text = "") then render_details shown
           else ErrorMessage (error_or_not_found s)
       | None, Some shown => render_details shown
       | _, None => ErrorMessage (error_or_not_found s)
       end.

End with_parseInt.
End MovieDetail.

(** ** utils/formatters *)

Module formatters.

(** [formatDuration], for a whole number of minutes that a JS number
    holds exactly. *)
Definition formatDuration (minutes : Z) : string :=
  if bool_decide (minutes = 0%Z) || bool_decide (minutes < 0)%Z then "N/A"
  else
    let hours := (minutes / 60)%Z in
    let mins := (minutes `mod` 60)%Z in
    if decide (hours = 0%Z) then Z_toString mins +:+ "m"
    else if decide (mins = 0%Z) then Z_toString hours +:+ "h"
    else Z_toString hours +:+ "h " +:+ Z_toString mins +:+ "m".

(** A JS string as the sequence of its UTF-16 code units, which is what
    [length] and [substring] count. *)
Definition JsString := list N.

(** The three full stops of the template. *)
Definition ellipsis : JsString := [46; 46; 46]%N.

(** [truncateText], for a whole-number bound; [substring(0, maxLength)]
    takes a negative bound as 0. *)
Definition truncateText (text : JsString) (maxLength : Z) : JsString :=
  if decide (text = []) then []
  else if bool_decide (Z.of_nat (length text) ≤ maxLength)%Z then text
  else take (Z.to_nat maxLength) text ++ ellipsis.

End formatters.

(** ** pages/Favorites: [handleClearAll] with the hook it calls *)

Module FavoritesWithHook.
Section with_runtime.
Context {R : Runtime}.

(** [if (window.confirm(...)) { clearFavorites(); setFavoriteMovies([]); }]
    and, the hook's state being a new array, the run of the effect for it. *)
Definition handleClearAll (confirmed : bool)
    (c : useFavorites.Component) (s : Favorites.State)
    : useFavorites.Component * Favorites.State :=
  if confirmed then
    ((useFavorites.clearFavorites c).2,
     Favorites.fetchFavoriteMovies [] [] (Favorites.handleClearAll s))
  else (c, s).

End with_runtime.
End FavoritesWithHook.

(* ===================================================================== *)
(** * Part II: vocabulary of the properties                               *)
(* ===================================================================== *)

(** ** Query serialisation *)

Section serializer_vocabulary.
Import movieService.
Context {Num : JsNumber}.

(** A property survives serialisation when its value is none of
    [undefined], [null] and the empty string. *)
Definition kept (value : JsValue Num) : Prop :=
  value ≠ VUndefined ∧ value ≠ VNull ∧ value ≠ VString "".

Global Instance kept_dec (value : JsValue Num) : Decision (kept value).
Proof.
  unfold kept. destruct value as [| |n|s].
  - right; tauto.
  - right; tauto.
  - left; repeat split; discriminate.
  - destruct (decide (s = "")) as [->|Hne].
    + right; tauto.
    + left; repeat split; try discriminate. intros [= ?]; contradiction.
Defined.

End serializer_vocabulary.

(** ** The favourites store *)

Abbreviation read_error := "Error reading favorites from localStorage:".
Abbreviation save_error := "Error saving favorites to localStorage:".
Abbreviation clear_error := "Error clearing favorites from localStorage:".

Section store_vocabulary.
Context {R : Runtime}.

(** The text persisted under the favourites key. *)
Definition stored (w : World) : option string :=
  localStorage w !! FAVORITES_STORAGE_KEY.

(** What a read that reaches the storage decodes to, and the world after
    it: a text that does not parse is reported on the console. *)
Definition decode (w : World) : JsonValue * World :=
  match stored w with
  | None => (JArray [], w)
  | Some text =>
      if decide (text = "") then (JArray [], w)
      else match JSON_parse text with
           | Some value => (value, w)
           | None => (JArray [], logged read_error "SyntaxError" w)
           end
  end.

(** The world after a write of [value] that reaches the storage. *)
Definition written (value : JsonValue) (w : World) : World :=
  with_localStorage (<[FAVORITES_STORAGE_KEY := JSON_stringify value]> (localStorage w)) w.

(** [loads w ids]: a load in world [w] returns the array of [ids]. *)
Definition loads (w : World) (ids : list Z) : Prop :=
  (utils.getFavorites w).1 = Normal (number_array ids).

(** The list of ids that the store functions compute. *)
Definition add_id (movieId : Z) (ids : list Z) : list Z :=
  if decide (movieId ∈ ids) then ids else ids ++ [movieId].

Definition remove_id (movieId : Z) (ids : list Z) : list Z :=
  filter (λ id, id ≠ movieId) ids.

Definition toggle_id (movieId : Z) (ids : list Z) : list Z :=
  if decide (movieId ∈ ids) then remove_id movieId ids else add_id movieId ids.

(** The mutating operations the hook offers to a component. *)
Inductive Operation :=
| Add (movieId : Z)
| Remove (movieId : Z)
| Toggle (movieId : Z)
| Clear.

Definition perform (op : Operation) : M useFavorites.Component () :=
  match op with
  | Add movieId => useFavorites.addToFavorites movieId
  | Remove movieId => useFavorites.removeFromFavorites movieId
  | Toggle movieId => useFavorites.toggleFavorite movieId
  | Clear => useFavorites.clearFavorites
  end.

(** A sequence of user actions, each handler run to its end. *)
Definition perform_all (ops : list Operation) (c : useFavorites.Component)
    : useFavorites.Component :=
  foldl (λ c op, (perform op c).2) c ops.

Definition apply_op (op : Operation) (ids : list Z) : list Z :=
  match op with
  | Add movieId => add_id movieId ids
  | Remove movieId => remove_id movieId ids
  | Toggle movieId => toggle_id movieId ids
  | Clear => []
  end.

(** The component holds [ids] in memory and its world loads [ids]. *)
Definition in_sync (c : useFavorites.Component) (ids : list Z) : Prop :=
  faults (useFavorites.world c) = []
  ∧ loads (useFavorites.world c) ids
  ∧ useFavorites.favorites c = number_array ids.

(** The store is empty or holds the encoding of a duplicate-free list. *)
Definition clean (w : World) : Prop :=
  stored w = None
  ∨ ∃ ids, NoDup ids ∧ stored w = Some (JSON_stringify (number_array ids)).

(** The component's state and its store are both duplicate-free. *)
Definition tidy (c : useFavorites.Component) : Prop :=
  clean (useFavorites.world c)
  ∧ ∃ ids, NoDup ids ∧ useFavorites.favorites c = number_array ids.

End store_vocabulary.

(** ** The list controller *)

Section list_vocabulary.
Import movieService MoviesList.
Context {Num : JsNumber}.

(** Replacing the filters by a fresh object holding [properties], as all
    three handlers do. *)
Definition replace_filters (properties : MovieFilters Num) (s : State) : State :=
  let '(obj, s) := new_object properties s in setFilters obj s.

(** The current filters object was allocated, and the request issued last
    asks for the current filters. *)
Definition consistent (s : State) : Prop :=
  identity (filters s) < next_identity s
  ∧ last (issued s) = Some (getMovies_url (Some (props (filters s)))).

End list_vocabulary.

(** ** Hydration *)


(** ** Concrete inputs *)

(** A store holding the favourites 1, 5 and 2, every call succeeding. *)
Definition world_1_5_2 : World :=
  {| localStorage := {["favorites" := "[1,5,2]"]}; faults := []; console := [] |}.

(** An empty store. *)
Definition world_empty : World :=
  {| localStorage := ∅; faults := []; console := [] |}.

(** An empty store whose first call (a read) succeeds and whose second
    call (a write) fails. *)
Definition world_write_fails : World :=
  {| localStorage := ∅; faults := [false; true]; console := [] |}.

(** A store whose favourites key holds the JSON document [7]. *)
Definition world_number : World :=
  {| localStorage := {["favorites" := "7"]}; faults := []; console := [] |}.

(** A store holding the single favourite 5, every call succeeding. *)
Definition world_5 : World :=
  {| localStorage := {["favorites" := "[5]"]}; faults := []; console := [] |}.

Definition drama_movie : Movie := {| movie_id := 11; movie_title := "Heat" |}.
Definition comedy_movie : Movie := {| movie_id := 12; movie_title := "Airplane" |}.
Definition first_movie : Movie := {| movie_id := 1; movie_title := "Alien" |}.

Definition one_page (shown : list Movie) : PaginatedResponse :=
  {| data := Some shown; meta := Some {| total_pages := 1 |} |}.

Section concrete_filters.
Import movieService.
Local Existing Instance integer_numbers.

Definition drama_filters : MovieFilters integer_numbers :=
  [("page", VNumber 1%Z); ("page_size", VNumber 20%Z); ("genre", VString "Drama")].

Definition comedy_filters : MovieFilters integer_numbers :=
  [("page", VNumber 1%Z); ("page_size", VNumber 20%Z); ("genre", VString "Comedy")].

(** The list is shown; the user picks Drama, then Comedy before the Drama
    request has settled; the Comedy response arrives. *)
Definition comedy_shown : list (MoviesList.Event (Num := integer_numbers)) :=
  [MoviesList.Settled 0 (Fulfilled (one_page [first_movie]));
   MoviesList.FiltersChanged drama_filters;
   MoviesList.FiltersChanged comedy_filters;
   MoviesList.Settled 2 (Fulfilled (one_page [comedy_movie]))].

(** The user has picked Drama; the request is in flight. *)
Definition drama_asked : list (MoviesList.Event (Num := integer_numbers)) :=
  [MoviesList.Settled 0 (Fulfilled (one_page [first_movie]));
   MoviesList.FiltersChanged drama_filters].

(** The user has picked Drama, then Comedy before the Drama request has
    settled; both requests are in flight. *)
Definition comedy_asked : list (MoviesList.Event (Num := integer_numbers)) :=
  [MoviesList.Settled 0 (Fulfilled (one_page [first_movie]));
   MoviesList.FiltersChanged drama_filters;
   MoviesList.FiltersChanged comedy_filters].

(** The Drama request fails while its filters are current. *)
Definition drama_failed : list (MoviesList.Event (Num := integer_numbers)) :=
  [MoviesList.Settled 0 (Fulfilled (one_page [first_movie]));
   MoviesList.FiltersChanged drama_filters;
   MoviesList.Settled 1 (Rejected {| message := Some "Network Error" |})].

End concrete_filters.

(** ** More concrete inputs *)

(** A store holding the favourites 1, 5 and 2 whose first call (a read)
    fails and whose second call (a write) succeeds. *)
Definition world_read_fails : World :=
  {| localStorage := {["favorites" := "[1,5,2]"]}; faults := [true; false]; console := [] |}.

(** A store holding the single favourite 5 whose first call fails. *)
Definition world_removal_fails : World :=
  {| localStorage := {["favorites" := "[5]"]}; faults := [true]; console := [] |}.

(** The favourites page showing movie 1 as the only favourite. *)
Definition one_favourite_shown : Favorites.State :=
  Favorites.fetchFavoriteMovies [1%Z] [(0, Fulfilled (Plain first_movie))]
    Favorites.initial.

Section concrete_filters_more.
Import movieService.
Local Existing Instance integer_numbers.

(** The user picks Drama, then Comedy before the Drama request has
    settled; the Comedy request fails. *)
Definition comedy_failed : list (MoviesList.Event (Num := integer_numbers)) :=
  [MoviesList.Settled 0 (Fulfilled (one_page [first_movie]));
   MoviesList.FiltersChanged drama_filters;
   MoviesList.FiltersChanged comedy_filters;
   MoviesList.Settled 2 (Rejected {| message := Some "Network Error" |})].

Definition three_pages (shown : list Movie) : PaginatedResponse :=
  {| data := Some shown; meta := Some {| total_pages := 3 |} |}.

(** A session on the movies page: the first list arrives; the user picks a
    genre and types a year; the list for both arrives; the user goes to
    page 2 and then clears the filters. *)
Definition browsing : list (MovieFiltersPanel.Action (Num := integer_numbers)) :=
  [MovieFiltersPanel.ResponseArrived 0 (Fulfilled (three_pages [first_movie]));
   MovieFiltersPanel.GenreChosen "Drama";
   MovieFiltersPanel.YearTyped "1999";
   MovieFiltersPanel.ResponseArrived 2 (Fulfilled (three_pages [drama_movie]));
   MovieFiltersPanel.PageChosen 2%Z;
   MovieFiltersPanel.FiltersCleared].

(** [parseInt] on the decimal texts of integers; 0 stands in elsewhere. *)
Definition parseInt_decimal (text : string) : Z :=
  default 0%Z (reference.parse_integer text).

End concrete_filters_more.

(** ** More vocabulary: the list controller *)

Section list_vocabulary_more.
Import movieService MoviesList.
Context {Num : JsNumber}.

(** The events by which the user asks for a list. *)
Definition asks (e : Event) : bool :=
  match e with
  | Settled _ _ => false
  | _ => true
  end.

(** Requests in flight are known, each once, and while the list shows as
    loading the request issued last is among them. *)
Definition tracked (s : State) : Prop :=
  NoDup (pending s)
  ∧ (∀ request, request ∈ pending s → request < length (issued s))
  ∧ (loading s = true → latest_request s ∈ pending s).

(** An error on record is a non-empty message. *)
Definition error_is_message (s : State) : Prop :=
  ∀ text, error s = Some text → text ≠ "".

End list_vocabulary_more.

(** ** More vocabulary: the filter panel *)

Section panel_vocabulary.
Import movieService MoviesList MovieFiltersPanel.
Context {Num : JsNumber}.

(** The property names of a filters object, in order. *)
Definition keys (filters : MovieFilters Num) : list string := filters.*1.

(** The query parameters named [key]. *)
Definition params_named (key : string) (filters : MovieFilters Num)
    : list (string * string) :=
  filter (λ param, param.1 = key)
         (getMovies_params (Some filters) : list (string * string)).

(** What the serialiser makes of one property value. *)
Definition param_of (key : string) (value : JsValue Num) : list (string * string) :=
  if decide (kept value) then [(key, toString value)] else [].

(** A filters object as the page keeps it: no property twice, the page
    size of the configuration, and a number as the page. *)
Definition paged (page_size : number) (filters : MovieFilters Num) : Prop :=
  NoDup (keys filters)
  ∧ property filters "page_size" = VNumber page_size
  ∧ ∃ page, property filters "page" = VNumber page.

(** What one choice in the panel does to the query: the parameters named
    [key] become [expected], the query asks for page 1, and the
    parameters of every other name are those of the filters before. *)
Definition sets_parameter (key : string) (expected : list (string * string))
    (before after : MovieFilters Num) : Prop :=
  params_named key after = expected
  ∧ params_named "page" after = [("page", Number_toString number_one)]
  ∧ ∀ name, name ≠ "page" → name ≠ key →
      params_named name after = params_named name before.

(** The controller's state as the panel and the page keep it. *)
Definition settled_page (page_size : number) (s : State) : Prop :=
  consistent s
  ∧ paged page_size (props (filters s))
  ∧ Forall (λ url, ∃ asked, paged page_size asked
                            ∧ url = getMovies_url (Some asked)) (issued s).

End panel_vocabulary.

(** ** More vocabulary: formatted texts *)

(** A text of decimal digits only. *)
Fixpoint digits (s : string) : Prop :=
  match s with
  | EmptyString => True
  | String c rest => Ascii.is_nat c ≠ None ∧ digits rest
  end.

(** A text that does not begin with a decimal digit. *)
Definition no_digit_first (s : string) : Prop :=
  match s with
  | EmptyString => True
  | String c _ => Ascii.is_nat c = None
  end.

(** The text for [hours] hours and [mins] minutes, as [formatDuration]
    composes it. *)
Definition duration_text (hours mins : Z) : string :=
  if decide (hours = 0%Z) then Z_toString mins +:+ "m"
  else if decide (mins = 0%Z) then Z_toString hours +:+ "h"
  else Z_toString hours +:+ "h " +:+ Z_toString mins +:+ "m".

(** The integers a JS number holds exactly: [Math.floor(minutes / 60)] is
    the integer quotient there, and a template prints all their digits. *)
Definition safe_integer (z : Z) : Prop :=
  (- 9007199254740991 ≤ z ≤ 9007199254740991)%Z.

(** ** More vocabulary: a user who waits *)

Section waiting_vocabulary.
Import movieService MoviesList.
Context {Num : JsNumber}.

(** In the run of [events] from [s], the user acts only when no request
    is in flight. *)
Fixpoint waited (s : State) (events : list Event) : Prop :=
  match events with
  | [] => True
  | e :: rest =>
      (asks e = true → pending s = [])
      ∧ match step s e with
        | Some s' => waited s' rest
        | None => True
        end
  end.

(** Nothing is in flight and nothing shows as loading, or the request
    issued last is the one in flight and the list shows as loading. *)
Definition at_rest_or_waiting (s : State) : Prop :=
  (pending s = [] ∧ loading s = false)
  ∨ (pending s = [latest_request s] ∧ loading s = true).

End waiting_vocabulary.

(* ===================================================================== *)
(** * Part III: properties                                                *)
(* ===================================================================== *)

(** ** Query serialisation *)

Section serializer_facts.
Import movieService.
Context {Num : JsNumber}.

Lemma guard_true_iff (value : JsValue Num) :
  not_undefined value && not_null value && not_empty_string value = true ↔ kept value.
Proof.
  unfold kept.
  destruct value as [| |n|[|c s]]; simpl; split; try discriminate; try tauto;
    intros; repeat split; discriminate.
Qed.

Lemma guard_false_iff (value : JsValue Num) :
  not_undefined value && not_null value && not_empty_string value = false ↔ ¬ kept value.
Proof.
  rewrite <- guard_true_iff.
  destruct (not_undefined value && not_null value && not_empty_string value);
    split; intros; try discriminate; try reflexivity; tauto.
Qed.

(** The [forEach] loop, started with any parameters already appended. *)
Lemma forEach_append (entries : MovieFilters Num) (params : URLSearchParams) :
  foldl (λ params '(key, value),
           if not_undefined value && not_null value && not_empty_string value
           then URLSearchParams_append params key (toString value)
           else params) params entries
  = params ++ omap (λ '(key, value),
                      if not_undefined value && not_null value && not_empty_string value
                      then Some (key, toString value) else None) entries.
Proof.
  revert params.
  induction entries as [|[key value] entries IH]; intros params; simpl.
  - by rewrite app_nil_r.
  - rewrite IH. unfold URLSearchParams_append.
    destruct (not_undefined value && not_null value && not_empty_string value); simpl.
    + by rewrite <- app_assoc.
    + done.
Qed.

Lemma getMovies_params_omap (filters : MovieFilters Num) :
  getMovies_params (Some filters)
  = omap (λ '(key, value),
            if not_undefined value && not_null value && not_empty_string value
            then Some (key, toString value) else None) filters.
Proof. unfold getMovies_params, Object_entries. by rewrite forEach_append. Qed.

Lemma getMovies_params_length (filters : MovieFilters Num) :
  length (getMovies_params (Some filters))
  = length (filter (λ entry, kept entry.2) filters).
Proof.
  rewrite getMovies_params_omap. unfold MovieFilters in *.
  induction filters as [|[key value] filters IH]; [done|].
  rewrite filter_cons. cbn [omap list_omap snd].
  destruct (not_undefined value && not_null value && not_empty_string value) eqn:Hg.
  - apply guard_true_iff in Hg. rewrite decide_True by done.
    cbn [length]. by rewrite <- IH.
  - apply guard_false_iff in Hg. by rewrite decide_False.
Qed.

(** C2.  Serialising a filters object drops exactly the properties whose
    value is [undefined], [null] or the empty string, and writes every
    other one under its own key in its text form: a pair [(key, text)] is
    among the query parameters if and only if the object has a property
    [key] that is a number whose [toString] is [text], or the string
    [text], which is not empty.  So every number, [0] included, is
    serialised under its key, every non-empty string is serialised as
    itself, and there are as many parameters as kept properties. *)
Theorem getMovies_params_omits_exactly (filters : MovieFilters Num) :
  (∀ key text,
     (key, text) ∈ getMovies_params (Some filters)
     ↔ (∃ n, (key, VNumber n) ∈ filters ∧ text = Number_toString n)
       ∨ ((key, VString text) ∈ filters ∧ text ≠ ""))
  ∧ (∀ key n,
       (key, VNumber n) ∈ filters →
       (key, Number_toString n) ∈ getMovies_params (Some filters))
  ∧ (∀ key text,
       (key, VString text) ∈ filters → text ≠ "" →
       (key, text) ∈ getMovies_params (Some filters))
  ∧ (∀ key text,
       (key, text) ∈ getMovies_params (Some filters) →
       ∃ value, (key, value) ∈ filters
                ∧ value ≠ VUndefined ∧ value ≠ VNull ∧ value ≠ VString "")
  ∧ length (getMovies_params (Some filters))
    = length (filter (λ entry, kept entry.2) filters).
Proof.
  rewrite getMovies_params_omap.
  assert (Hmem : ∀ key text,
    (key, text) ∈ omap (λ '(key, value),
        if not_undefined value && not_null value && not_empty_string value
        then Some (key, toString value) else None) filters
    ↔ (∃ n, (key, VNumber n) ∈ filters ∧ text = Number_toString n)
      ∨ ((key, VString text) ∈ filters ∧ text ≠ "")).
  { intros key text. rewrite list_elem_of_omap. split.
    - intros [[k value] [Hin Heq]].
      destruct value as [| |n|str]; cbn in Heq; try discriminate.
      + simplify_eq. left. by exists n.
      + destruct str as [|c str]; cbn in Heq; [discriminate|].
        simplify_eq. right. done.
    - intros [(n & Hin & ->)|[Hin Hne]].
      + by exists (key, VNumber n).
      + exists (key, VString text). split; [done|].
        destruct text; [done|reflexivity]. }
  split; [exact Hmem|]. split; [|split; [|split]].
  - intros key n Hin. apply Hmem. left. by exists n.
  - intros key text Hin Hne. apply Hmem. by right.
  - intros key text [(n & Hin & _)|[Hin Hne]]%Hmem.
    + exists (VNumber n). by repeat split.
    + exists (VString text). repeat split; try done. by intros [= ->].
  - rewrite <- getMovies_params_omap. apply getMovies_params_length.
Qed.

End serializer_facts.

(** ** The favourites store *)

Section store_facts.
Context {R : Runtime}.

Lemma getFavorites_unfold (w : World) :
  utils.getFavorites w
  = (if (next_fault w).1
     then (Normal (JArray []), logged read_error "SecurityError" (next_fault w).2)
     else (Normal (decode (next_fault w).2).1, (decode (next_fault w).2).2)).
Proof.
  unfold utils.getFavorites, try_catch, bind, localStorage_getItem, storage_call.
  destruct (next_fault w) as [[|] w']; simpl; [done|].
  unfold decode, stored.
  destruct (localStorage w' !! FAVORITES_STORAGE_KEY) as [text|]; [|done].
  destruct (decide (text = "")); [done|].
  by destruct (JSON_parse text).
Qed.

Lemma saveFavorites_unfold (value : JsonValue) (w : World) :
  utils.saveFavorites value w
  = (Normal (),
     if (next_fault w).1
     then logged save_error "QuotaExceededError" (next_fault w).2
     else written value (next_fault w).2).
Proof.
  unfold utils.saveFavorites, try_catch, localStorage_setItem, storage_call.
  by destruct (next_fault w) as [[|] w'].
Qed.

Lemma clearFavorites_unfold (w : World) :
  utils.clearFavorites w
  = (Normal (),
     if (next_fault w).1
     then logged clear_error "SecurityError" (next_fault w).2
     else with_localStorage (delete FAVORITES_STORAGE_KEY (localStorage (next_fault w).2))
            (next_fault w).2).
Proof.
  unfold utils.clearFavorites, try_catch, localStorage_removeItem, storage_call.
  by destruct (next_fault w) as [[|] w'].
Qed.

(** Asking the oracle leaves the storage and the console alone; with no
    fault pending it changes nothing. *)
Lemma next_fault_stored (w : World) : stored (next_fault w).2 = stored w.
Proof. unfold next_fault. by destruct (faults w). Qed.

Lemma next_fault_reliable (w : World) :
  faults w = [] → next_fault w = (false, w).
Proof. unfold next_fault. by intros ->. Qed.

Lemma decode_stored (w : World) : stored (decode w).2 = stored w.
Proof.
  unfold decode. destruct (stored w) as [text|] eqn:E; [|done].
  destruct (decide (text = "")); [done|]. by destruct (JSON_parse text).
Qed.

Lemma decode_faults (w : World) : faults (decode w).2 = faults w.
Proof.
  unfold decode. destruct (stored w) as [text|]; [|done].
  destruct (decide (text = "")); [done|]. by destruct (JSON_parse text).
Qed.

(** Reading back what [saveFavorites] wrote for an array of ids. *)
Lemma decode_written (ids : list Z) (w : World) :
  decode (written (number_array ids) w) = (number_array ids, written (number_array ids) w).
Proof.
  unfold decode, stored, written. simpl. rewrite lookup_insert_eq.
  rewrite decide_False by apply JSON_stringify_array.
  by rewrite JSON_parse_stringify.
Qed.

(** [includes] and [filter] on an array of ids are membership and
    removal on the list of ids. *)
Lemma Exists_number_array (ids : list Z) (movieId : Z) :
  Exists (λ id, id = JNumber movieId) (JNumber <$> ids) ↔ movieId ∈ ids.
Proof.
  rewrite Exists_exists. split.
  - intros (v & Hin & ->). apply list_elem_of_fmap in Hin as (n & [= ->] & Hn). done.
  - intros Hin. exists (JNumber movieId). split; [|done].
    apply list_elem_of_fmap. by exists movieId.
Qed.

Lemma filter_number_array (ids : list Z) (movieId : Z) :
  filter (λ id, id ≠ JNumber movieId) (JNumber <$> ids)
  = JNumber <$> filter (λ id, id ≠ movieId) ids.
Proof.
  induction ids as [|n ids IH]; [done|].
  rewrite fmap_cons, !filter_cons, IH.
  destruct (decide (n ≠ movieId)) as [Hne|Heq].
  - rewrite decide_True; [done|]. intros [= ?]; contradiction.
  - rewrite decide_False; [done|]. intros Hne. apply Heq. intros ->. by apply Hne.
Qed.

Lemma getFavorites_reliable (w : World) :
  faults w = [] → utils.getFavorites w = (Normal (decode w).1, (decode w).2).
Proof.
  intros Hw. rewrite getFavorites_unfold. by rewrite (next_fault_reliable w Hw).
Qed.

Lemma saveFavorites_reliable (value : JsonValue) (w : World) :
  faults w = [] → utils.saveFavorites value w = (Normal (), written value w).
Proof.
  intros Hw. rewrite saveFavorites_unfold. by rewrite (next_fault_reliable w Hw).
Qed.

(** The list-level reading of the three store functions, valid whenever
    the load at their start yields an array of ids. *)
Lemma addToFavorites_unfold (movieId : Z) (w : World) (ids : list Z) :
  (utils.getFavorites w).1 = Normal (number_array ids) →
  utils.addToFavorites movieId w
  = (if decide (movieId ∈ ids)
     then (Normal (number_array ids), (utils.getFavorites w).2)
     else (Normal (number_array (ids ++ [movieId])),
           (utils.saveFavorites (number_array (ids ++ [movieId]))
              (utils.getFavorites w).2).2)).
Proof.
  intros Hload. unfold utils.addToFavorites, bind.
  destruct (utils.getFavorites w) as [r w1]. simpl in Hload. subst r.
  cbn [snd]. unfold number_array at 1. cbn [includes ret].
  rewrite (bool_decide_ext _ _ (Exists_number_array ids movieId)).
  destruct (decide (movieId ∈ ids)) as [Hin|Hout].
  - by rewrite bool_decide_true.
  - rewrite bool_decide_false by done. cbn [negb spread_with ret number_array].
    assert (JArray ((JNumber <$> ids) ++ [JNumber movieId])
            = number_array (ids ++ [movieId])) as ->
      by (unfold number_array; by rewrite fmap_app).
    pose proof (saveFavorites_unfold (number_array (ids ++ [movieId])) w1) as Hs.
    destruct (utils.saveFavorites (number_array (ids ++ [movieId])) w1) as [r2 w2].
    injection Hs as -> ->. done.
Qed.

Lemma removeFromFavorites_unfold (movieId : Z) (w : World) (ids : list Z) :
  (utils.getFavorites w).1 = Normal (number_array ids) →
  utils.removeFromFavorites movieId w
  = (Normal (number_array (filter (λ id, id ≠ movieId) ids)),
     (utils.saveFavorites (number_array (filter (λ id, id ≠ movieId) ids))
        (utils.getFavorites w).2).2).
Proof.
  intros Hload. unfold utils.removeFromFavorites, bind.
  destruct (utils.getFavorites w) as [r w1]. simpl in Hload. subst r.
  cbn [snd]. unfold number_array at 1. cbn [filter_out ret].
  rewrite filter_number_array. fold (number_array (filter (λ id, id ≠ movieId) ids)).
  pose proof (saveFavorites_unfold (number_array (filter (λ id, id ≠ movieId) ids)) w1) as Hs.
  destruct (utils.saveFavorites (number_array (filter (λ id, id ≠ movieId) ids)) w1)
    as [r2 w2].
  injection Hs as -> ->. done.
Qed.

Lemma isFavorite_unfold (movieId : Z) (w : World) (ids : list Z) :
  (utils.getFavorites w).1 = Normal (number_array ids) →
  utils.isFavorite movieId w
  = (Normal (bool_decide (movieId ∈ ids)), (utils.getFavorites w).2).
Proof.
  intros Hload. unfold utils.isFavorite, bind.
  destruct (utils.getFavorites w) as [r w1]. simpl in Hload. subst r.
  unfold number_array. cbn [includes ret].
  by rewrite (bool_decide_ext _ _ (Exists_number_array ids movieId)).
Qed.

(** *** The favourites as a list of ids *)

Lemma NoDup_add_id (movieId : Z) (ids : list Z) : NoDup ids → NoDup (add_id movieId ids).
Proof.
  intros Hnd. unfold add_id. destruct (decide (movieId ∈ ids)); [done|].
  apply NoDup_app. split; [done|]. split.
  - intros x Hx Hx'. apply list_elem_of_singleton in Hx'. by subst.
  - apply NoDup_singleton.
Qed.

Lemma NoDup_remove_id (movieId : Z) (ids : list Z) :
  NoDup ids → NoDup (remove_id movieId ids).
Proof. apply NoDup_filter. Qed.

Lemma NoDup_apply_op (op : Operation) (ids : list Z) : NoDup ids → NoDup (apply_op op ids).
Proof.
  destruct op; simpl; unfold toggle_id; intros Hnd.
  - by apply NoDup_add_id.
  - by apply NoDup_remove_id.
  - destruct (decide (movieId ∈ ids)); [by apply NoDup_remove_id|by apply NoDup_add_id].
  - apply NoDup_nil_2.
Qed.

Lemma addToFavorites_value (movieId : Z) (w : World) (ids : list Z) :
  loads w ids → (utils.addToFavorites movieId w).1 = Normal (number_array (add_id movieId ids)).
Proof.
  intros Hl. rewrite (addToFavorites_unfold _ _ _ Hl). unfold add_id.
  by destruct (decide (movieId ∈ ids)).
Qed.

Lemma removeFromFavorites_value (movieId : Z) (w : World) (ids : list Z) :
  loads w ids →
  (utils.removeFromFavorites movieId w).1 = Normal (number_array (remove_id movieId ids)).
Proof. intros Hl. by rewrite (removeFromFavorites_unfold _ _ _ Hl). Qed.

(** *** Worlds whose storage calls all succeed *)

Lemma decode_reliable_loads (w : World) (ids : list Z) :
  faults w = [] → loads w ids → (decode w).1 = number_array ids.
Proof.
  unfold loads. intros Hw. rewrite (getFavorites_reliable w Hw). simpl. by intros [= ->].
Qed.

Lemma decode_idem (w : World) : (decode (decode w).2).1 = (decode w).1.
Proof.
  unfold decode at 1 3. rewrite decode_stored.
  destruct (stored w) as [text|]; [|done].
  destruct (decide (text = "")); [done|]. by destruct (JSON_parse text).
Qed.

Lemma loads_after_load (w : World) (ids : list Z) :
  faults w = [] → loads w ids →
  faults (utils.getFavorites w).2 = [] ∧ loads (utils.getFavorites w).2 ids.
Proof.
  intros Hw Hl. pose proof (decode_reliable_loads w ids Hw Hl) as Hd.
  rewrite (getFavorites_reliable w Hw). cbn [snd].
  assert (faults (decode w).2 = []) as Hw' by (by rewrite decode_faults).
  split; [done|]. unfold loads. rewrite (getFavorites_reliable _ Hw'). cbn [fst].
  by rewrite decode_idem, Hd.
Qed.

Lemma loads_after_save (w : World) (ids : list Z) :
  faults w = [] →
  faults (utils.saveFavorites (number_array ids) w).2 = []
  ∧ loads (utils.saveFavorites (number_array ids) w).2 ids.
Proof.
  intros Hw. rewrite (saveFavorites_reliable _ w Hw). cbn [snd].
  assert (faults (written (number_array ids) w) = []) as Hw' by done.
  split; [done|]. unfold loads. rewrite (getFavorites_reliable _ Hw').
  by rewrite decode_written.
Qed.

Lemma loads_after_clear (w : World) :
  faults w = [] →
  faults (utils.clearFavorites w).2 = [] ∧ loads (utils.clearFavorites w).2 [].
Proof.
  intros Hw. rewrite clearFavorites_unfold, (next_fault_reliable w Hw). cbn [fst snd].
  split; [done|]. unfold loads. rewrite getFavorites_reliable by done.
  unfold decode, stored. cbn [localStorage with_localStorage].
  by rewrite lookup_delete_eq.
Qed.

Lemma addToFavorites_reliable (movieId : Z) (w : World) (ids : list Z) :
  faults w = [] → loads w ids →
  faults (utils.addToFavorites movieId w).2 = []
  ∧ loads (utils.addToFavorites movieId w).2 (add_id movieId ids).
Proof.
  intros Hw Hl. rewrite (addToFavorites_unfold _ _ _ Hl). unfold add_id.
  destruct (loads_after_load w ids Hw Hl) as [Hw1 Hl1].
  destruct (decide (movieId ∈ ids)); cbn [snd]; [done|].
  by apply loads_after_save.
Qed.

Lemma removeFromFavorites_reliable (movieId : Z) (w : World) (ids : list Z) :
  faults w = [] → loads w ids →
  faults (utils.removeFromFavorites movieId w).2 = []
  ∧ loads (utils.removeFromFavorites movieId w).2 (remove_id movieId ids).
Proof.
  intros Hw Hl. rewrite (removeFromFavorites_unfold _ _ _ Hl). cbn [snd].
  destruct (loads_after_load w ids Hw Hl) as [Hw1 Hl1].
  by apply loads_after_save.
Qed.

(** *** The hook on reliable worlds: it refines the list of ids *)

Lemma hook_add_reliable (movieId : Z) (c : useFavorites.Component) (ids : list Z) :
  faults (useFavorites.world c) = [] → loads (useFavorites.world c) ids →
  (useFavorites.addToFavorites movieId c).1 = Normal ()
  ∧ in_sync (useFavorites.addToFavorites movieId c).2 (add_id movieId ids).
Proof.
  intros Hw Hl.
  pose proof (addToFavorites_value movieId _ _ Hl) as Hv.
  destruct (addToFavorites_reliable movieId _ _ Hw Hl) as [Hw' Hl'].
  unfold useFavorites.addToFavorites, bind, useFavorites.lift, useFavorites.setFavorites.
  destruct (utils.addToFavorites movieId (useFavorites.world c)) as [r w'].
  cbn [fst snd] in *. subst r. by repeat split.
Qed.

Lemma hook_remove_reliable (movieId : Z) (c : useFavorites.Component) (ids : list Z) :
  faults (useFavorites.world c) = [] → loads (useFavorites.world c) ids →
  (useFavorites.removeFromFavorites movieId c).1 = Normal ()
  ∧ in_sync (useFavorites.removeFromFavorites movieId c).2 (remove_id movieId ids).
Proof.
  intros Hw Hl.
  pose proof (removeFromFavorites_value movieId _ _ Hl) as Hv.
  destruct (removeFromFavorites_reliable movieId _ _ Hw Hl) as [Hw' Hl'].
  unfold useFavorites.removeFromFavorites, bind, useFavorites.lift,
    useFavorites.setFavorites.
  destruct (utils.removeFromFavorites movieId (useFavorites.world c)) as [r w'].
  cbn [fst snd] in *. subst r. by repeat split.
Qed.

Lemma hook_toggle_reliable (movieId : Z) (c : useFavorites.Component) (ids : list Z) :
  faults (useFavorites.world c) = [] → loads (useFavorites.world c) ids →
  (useFavorites.toggleFavorite movieId c).1 = Normal ()
  ∧ in_sync (useFavorites.toggleFavorite movieId c).2 (toggle_id movieId ids).
Proof.
  intros Hw Hl.
  destruct (loads_after_load _ _ Hw Hl) as [Hw1 Hl1].
  unfold useFavorites.toggleFavorite, bind, useFavorites.lift.
  rewrite (isFavorite_unfold _ _ _ Hl). unfold toggle_id.
  destruct (decide (movieId ∈ ids)) as [Hin|Hout].
  - rewrite bool_decide_true by done. by apply hook_remove_reliable.
  - rewrite bool_decide_false by done. by apply hook_add_reliable.
Qed.

Lemma hook_clear_reliable (c : useFavorites.Component) :
  faults (useFavorites.world c) = [] →
  (useFavorites.clearFavorites c).1 = Normal ()
  ∧ in_sync (useFavorites.clearFavorites c).2 [].
Proof.
  intros Hw. destruct (loads_after_clear _ Hw) as [Hw' Hl'].
  unfold useFavorites.clearFavorites, bind, useFavorites.lift, useFavorites.setFavorites.
  pose proof (clearFavorites_unfold (useFavorites.world c)) as Hc.
  destruct (utils.clearFavorites (useFavorites.world c)) as [r w'].
  injection Hc as -> Hc. cbn [fst snd] in *. by repeat split.
Qed.

Lemma perform_reliable (op : Operation) (c : useFavorites.Component) (ids : list Z) :
  faults (useFavorites.world c) = [] → loads (useFavorites.world c) ids →
  (perform op c).1 = Normal () ∧ in_sync (perform op c).2 (apply_op op ids).
Proof.
  intros Hw Hl. destruct op; simpl.
  - by apply hook_add_reliable.
  - by apply hook_remove_reliable.
  - by apply hook_toggle_reliable.
  - by apply hook_clear_reliable.
Qed.

Lemma perform_all_reliable (ops : list Operation) (c : useFavorites.Component)
    (ids : list Z) :
  in_sync c ids → in_sync (perform_all ops c) (foldl (λ ids op, apply_op op ids) ids ops).
Proof.
  revert c ids. induction ops as [|op ops IH]; intros c ids Hc; [done|].
  simpl. apply IH. destruct Hc as (Hw & Hl & _).
  by apply perform_reliable.
Qed.

Lemma load_on_mount_reliable (w : World) (ids : list Z) :
  faults w = [] → loads w ids →
  in_sync (useFavorites.load_on_mount (useFavorites.initial w)).2 ids.
Proof.
  intros Hw Hl. destruct (loads_after_load _ _ Hw Hl) as [Hw1 Hl1].
  unfold useFavorites.load_on_mount, bind, useFavorites.lift, useFavorites.setFavorites,
    useFavorites.initial. cbn [useFavorites.world useFavorites.favorites].
  unfold loads in Hl.
  destruct (utils.getFavorites w) as [r w1]. cbn [fst snd] in *. subst r.
  by repeat split.
Qed.

(** *** Idempotence *)

Lemma bind_normal {S A B} (c : M S A) (k : A → M S B) (s : S) (a : A) :
  (c s).1 = Normal a → bind c k s = k a (c s).2.
Proof. unfold bind. destruct (c s) as [r s']. simpl. by intros ->. Qed.

Lemma decode_unchanged (w : World) : (decode w).1 ≠ JArray [] → (decode w).2 = w.
Proof.
  unfold decode. destruct (stored w) as [text|]; [|done].
  destruct (decide (text = "")); [done|]. by destruct (JSON_parse text).
Qed.

Lemma written_written (value : JsonValue) (w : World) :
  written value (written value w) = written value w.
Proof.
  unfold written, with_localStorage. cbn [localStorage faults console].
  by rewrite insert_insert_eq.
Qed.

Lemma remove_id_idem (movieId : Z) (ids : list Z) :
  remove_id movieId (remove_id movieId ids) = remove_id movieId ids.
Proof.
  unfold remove_id. induction ids as [|n ids IH]; [done|].
  rewrite filter_cons. destruct (decide (n ≠ movieId)); [|done].
  rewrite filter_cons, decide_True by done. by rewrite IH.
Qed.

Lemma elem_of_add_id (x movieId : Z) (ids : list Z) :
  x ∈ add_id movieId ids ↔ x = movieId ∨ x ∈ ids.
Proof.
  unfold add_id. destruct (decide (movieId ∈ ids)).
  - split; [by right|]. by intros [->|].
  - rewrite elem_of_app, list_elem_of_singleton. tauto.
Qed.

Lemma elem_of_remove_id (x movieId : Z) (ids : list Z) :
  x ∈ remove_id movieId ids ↔ x ≠ movieId ∧ x ∈ ids.
Proof. unfold remove_id. by rewrite list_elem_of_filter. Qed.

Lemma filter_all {A} (P : A → Prop) `{∀ x, Decision (P x)} (l : list A) :
  Forall P l → filter P l = l.
Proof.
  induction 1 as [|x l Hx _ IH]; [done|].
  by rewrite filter_cons, decide_True, IH.
Qed.

Lemma remove_add_fresh (movieId : Z) (ids : list Z) :
  movieId ∉ ids → remove_id movieId (add_id movieId ids) = ids.
Proof.
  intros Hout. unfold add_id, remove_id. rewrite decide_False by done.
  rewrite filter_app, filter_cons, decide_False by (by intros ?).
  rewrite filter_nil, app_nil_r. apply filter_all, Forall_forall.
  intros x Hx ->. done.
Qed.

Lemma toggle_twice_absent (movieId : Z) (ids : list Z) :
  movieId ∉ ids → toggle_id movieId (toggle_id movieId ids) = ids.
Proof.
  intros Hout. unfold toggle_id at 2. rewrite decide_False by done.
  unfold toggle_id. rewrite decide_True.
  - by apply remove_add_fresh.
  - unfold add_id. rewrite decide_False by done. apply elem_of_app. right.
    apply list_elem_of_here.
Qed.

Lemma toggle_twice_present (movieId : Z) (ids : list Z) :
  movieId ∈ ids →
  toggle_id movieId (toggle_id movieId ids) = remove_id movieId ids ++ [movieId].
Proof.
  intros Hin. unfold toggle_id at 2. rewrite decide_True by done.
  assert (movieId ∉ remove_id movieId ids) as Hout.
  { unfold remove_id. rewrite list_elem_of_filter. tauto. }
  unfold toggle_id. rewrite decide_False by done.
  unfold add_id. by rewrite decide_False.
Qed.

Lemma elem_of_toggle_twice (x movieId : Z) (ids : list Z) :
  x ∈ toggle_id movieId (toggle_id movieId ids) ↔ x ∈ ids.
Proof.
  unfold toggle_id at 2. destruct (decide (movieId ∈ ids)) as [Hin|Hout].
  - unfold toggle_id. rewrite decide_False.
    + rewrite elem_of_add_id, elem_of_remove_id.
      destruct (decide (x = movieId)) as [->|]; tauto.
    + rewrite elem_of_remove_id. tauto.
  - unfold toggle_id. rewrite decide_True.
    + rewrite elem_of_remove_id, elem_of_add_id.
      destruct (decide (x = movieId)) as [->|]; tauto.
    + rewrite elem_of_add_id. by left.
Qed.

Lemma addToFavorites_twice (movieId : Z) (w : World) (ids : list Z) :
  faults w = [] → loads w ids →
  bind (utils.addToFavorites movieId) (λ _, utils.addToFavorites movieId) w
  = utils.addToFavorites movieId w.
Proof.
  intros Hw Hl.
  rewrite (bind_normal _ _ _ _ (addToFavorites_value movieId w ids Hl)).
  destruct (addToFavorites_reliable movieId w ids Hw Hl) as [Hw1 Hl1].
  rewrite (addToFavorites_unfold movieId _ _ Hl1).
  rewrite decide_True by (apply elem_of_add_id; by left).
  rewrite (getFavorites_reliable _ Hw1).
  pose proof (decode_reliable_loads _ _ Hw1 Hl1) as Hd.
  rewrite Hd, decode_unchanged; cbn [snd].
  - rewrite (addToFavorites_unfold movieId w ids Hl). unfold add_id.
    by destruct (decide (movieId ∈ ids)).
  - rewrite Hd. unfold add_id, number_array.
    destruct (decide (movieId ∈ ids)) as [Hin|Hout].
    + destruct ids; [by apply elem_of_nil in Hin|done].
    + destruct ids; done.
Qed.

Lemma removeFromFavorites_twice (movieId : Z) (w : World) (ids : list Z) :
  faults w = [] → loads w ids →
  bind (utils.removeFromFavorites movieId) (λ _, utils.removeFromFavorites movieId) w
  = utils.removeFromFavorites movieId w.
Proof.
  intros Hw Hl.
  rewrite (bind_normal _ _ _ _ (removeFromFavorites_value movieId w ids Hl)).
  destruct (loads_after_load w ids Hw Hl) as [Hw0 Hl0].
  rewrite (removeFromFavorites_unfold movieId w ids Hl). cbn [snd].
  fold (remove_id movieId ids).
  rewrite (saveFavorites_reliable _ _ Hw0). cbn [snd].
  set (w1 := written (number_array (remove_id movieId ids)) (utils.getFavorites w).2).
  assert (faults w1 = []) as Hw1 by done.
  assert (loads w1 (remove_id movieId ids)) as Hl1.
  { unfold loads. rewrite (getFavorites_reliable _ Hw1). unfold w1.
    by rewrite decode_written. }
  rewrite (removeFromFavorites_unfold movieId w1 _ Hl1).
  fold (remove_id movieId (remove_id movieId ids)). rewrite remove_id_idem.
  rewrite (getFavorites_reliable _ Hw1).
  replace (decode w1) with (number_array (remove_id movieId ids), w1)
    by (unfold w1; by rewrite decode_written).
  cbn [snd]. rewrite (saveFavorites_reliable _ _ Hw1). cbn [snd].
  unfold w1. by rewrite written_written.
Qed.

(** C4 (as the code has it).  On a world whose storage calls succeed and
    whose store loads a list of ids: adding an id twice leaves the same
    result and the same world as adding it once; so does removing it
    twice; toggling it twice through the hook returns normally and leaves
    the component and the store holding the original set of ids (the same
    elements, and a permutation of the original list when that list has
    no duplicates).  The list itself comes back only when the id was not
    in it; an id that was in it ends up last. *)
Theorem favorites_idempotence (movieId : Z) (w : World) (ids : list Z) :
  faults w = [] → loads w ids →
  bind (utils.addToFavorites movieId) (λ _, utils.addToFavorites movieId) w
    = utils.addToFavorites movieId w
  ∧ bind (utils.removeFromFavorites movieId) (λ _, utils.removeFromFavorites movieId) w
    = utils.removeFromFavorites movieId w
  ∧ ∀ c : useFavorites.Component, useFavorites.world c = w →
      let twice := bind (useFavorites.toggleFavorite movieId)
                        (λ _, useFavorites.toggleFavorite movieId) c in
      twice.1 = Normal ()
      ∧ ∃ ids', in_sync twice.2 ids'
                ∧ list_to_set ids' =@{gset Z} list_to_set ids
                ∧ (NoDup ids → ids' ≡ₚ ids)
                ∧ (movieId ∉ ids → ids' = ids)
                ∧ (movieId ∈ ids → ids' = remove_id movieId ids ++ [movieId]).
Proof.
  intros Hw Hl. split; [by eapply addToFavorites_twice|].
  split; [by eapply removeFromFavorites_twice|].
  intros c <-. cbn zeta.
  destruct (hook_toggle_reliable movieId c ids Hw Hl) as [Hn1 (Hw1 & Hl1 & Hf1)].
  rewrite (bind_normal _ _ _ _ Hn1).
  destruct (hook_toggle_reliable movieId _ _ Hw1 Hl1) as [Hn2 Hs2].
  split; [done|]. exists (toggle_id movieId (toggle_id movieId ids)).
  split; [done|]. split; [|split; [|split]].
  - apply set_eq. intros x. rewrite !elem_of_list_to_set. apply elem_of_toggle_twice.
  - intros Hnd. apply NoDup_Permutation; [|done|intros x; apply elem_of_toggle_twice].
    apply (NoDup_apply_op (Toggle movieId)), (NoDup_apply_op (Toggle movieId)), Hnd.
  - apply toggle_twice_absent.
  - apply toggle_twice_present.
Qed.

(** *** Uniqueness, whatever the storage does *)

Lemma clean_stored (w w' : World) : stored w' = stored w → clean w → clean w'.
Proof. unfold clean. by intros ->. Qed.

Lemma load_clean (w : World) :
  clean w → ∃ ids, NoDup ids ∧ loads w ids ∧ clean (utils.getFavorites w).2.
Proof.
  intros Hc. unfold loads. rewrite getFavorites_unfold.
  pose proof (next_fault_stored w) as Hs.
  destruct (next_fault w) as [[|] w']; cbn [fst snd] in *.
  - exists []. split; [apply NoDup_nil_2|]. split; [done|].
    by apply (clean_stored w).
  - apply (clean_stored w w' Hs) in Hc. unfold decode.
    destruct Hc as [Hnone|(ids & Hnd & Hsome)].
    + rewrite Hnone. exists []. split; [apply NoDup_nil_2|]. split; [done|]. by left.
    + rewrite Hsome, decide_False by apply JSON_stringify_array.
      rewrite JSON_parse_stringify. exists ids. split; [done|]. split; [done|].
      right. by exists ids.
Qed.

Lemma save_clean (ids : list Z) (w : World) :
  NoDup ids → clean w → clean (utils.saveFavorites (number_array ids) w).2.
Proof.
  intros Hnd Hc. rewrite saveFavorites_unfold.
  pose proof (next_fault_stored w) as Hs.
  destruct (next_fault w) as [[|] w']; cbn [fst snd] in *.
  - by apply (clean_stored w).
  - right. exists ids. split; [done|]. unfold stored, written. simpl.
    by rewrite lookup_insert_eq.
Qed.

Lemma clear_clean (w : World) : clean w → clean (utils.clearFavorites w).2.
Proof.
  intros Hc. rewrite clearFavorites_unfold.
  pose proof (next_fault_stored w) as Hs.
  destruct (next_fault w) as [[|] w']; cbn [fst snd] in *.
  - by apply (clean_stored w).
  - left. unfold stored. simpl. by rewrite lookup_delete_eq.
Qed.

Lemma add_clean (movieId : Z) (w : World) :
  clean w →
  ∃ ids, NoDup ids ∧ (utils.addToFavorites movieId w).1 = Normal (number_array ids)
         ∧ clean (utils.addToFavorites movieId w).2.
Proof.
  intros Hc. destruct (load_clean w Hc) as (ids & Hnd & Hl & Hc1).
  exists (add_id movieId ids). split; [by apply NoDup_add_id|].
  split; [by apply addToFavorites_value|].
  rewrite (addToFavorites_unfold _ _ _ Hl).
  destruct (decide (movieId ∈ ids)) as [Hin|Hout]; cbn [snd]; [done|].
  apply save_clean; [|done]. pose proof (NoDup_add_id movieId ids Hnd) as H.
  unfold add_id in H. by rewrite decide_False in H.
Qed.

Lemma remove_clean (movieId : Z) (w : World) :
  clean w →
  ∃ ids, NoDup ids ∧ (utils.removeFromFavorites movieId w).1 = Normal (number_array ids)
         ∧ clean (utils.removeFromFavorites movieId w).2.
Proof.
  intros Hc. destruct (load_clean w Hc) as (ids & Hnd & Hl & Hc1).
  exists (remove_id movieId ids). split; [by apply NoDup_remove_id|].
  split; [by apply removeFromFavorites_value|].
  rewrite (removeFromFavorites_unfold _ _ _ Hl). cbn [snd].
  apply save_clean; [|done]. by apply NoDup_remove_id.
Qed.

Lemma hook_add_tidy (movieId : Z) (c : useFavorites.Component) :
  clean (useFavorites.world c) →
  (useFavorites.addToFavorites movieId c).1 = Normal ()
  ∧ tidy (useFavorites.addToFavorites movieId c).2.
Proof.
  intros Hc. destruct (add_clean movieId _ Hc) as (ids & Hnd & Hv & Hc').
  unfold useFavorites.addToFavorites, bind, useFavorites.lift, useFavorites.setFavorites.
  destruct (utils.addToFavorites movieId (useFavorites.world c)) as [r w'].
  cbn [fst snd] in *. subst r. split; [done|]. split; [done|]. by exists ids.
Qed.

Lemma hook_remove_tidy (movieId : Z) (c : useFavorites.Component) :
  clean (useFavorites.world c) →
  (useFavorites.removeFromFavorites movieId c).1 = Normal ()
  ∧ tidy (useFavorites.removeFromFavorites movieId c).2.
Proof.
  intros Hc. destruct (remove_clean movieId _ Hc) as (ids & Hnd & Hv & Hc').
  unfold useFavorites.removeFromFavorites, bind, useFavorites.lift,
    useFavorites.setFavorites.
  destruct (utils.removeFromFavorites movieId (useFavorites.world c)) as [r w'].
  cbn [fst snd] in *. subst r. split; [done|]. split; [done|]. by exists ids.
Qed.

Lemma perform_tidy (op : Operation) (c : useFavorites.Component) :
  clean (useFavorites.world c) →
  (perform op c).1 = Normal () ∧ tidy (perform op c).2.
Proof.
  intros Hc. destruct op as [movieId|movieId|movieId|]; simpl.
  - by apply hook_add_tidy.
  - by apply hook_remove_tidy.
  - destruct (load_clean _ Hc) as (ids & Hnd & Hl & Hc1).
    unfold useFavorites.toggleFavorite, bind, useFavorites.lift.
    rewrite (isFavorite_unfold _ _ _ Hl).
    destruct (bool_decide (movieId ∈ ids)).
    + by apply hook_remove_tidy.
    + by apply hook_add_tidy.
  - unfold useFavorites.clearFavorites, bind, useFavorites.lift, useFavorites.setFavorites.
    pose proof (clear_clean _ Hc) as Hc'.
    pose proof (clearFavorites_unfold (useFavorites.world c)) as Hu.
    destruct (utils.clearFavorites (useFavorites.world c)) as [r w'].
    injection Hu as -> Hu. cbn [fst snd] in *. split; [done|]. split; [done|].
    exists []. split; [apply NoDup_nil_2|done].
Qed.

Lemma perform_all_tidy (ops : list Operation) (c : useFavorites.Component) :
  tidy c → tidy (perform_all ops c).
Proof.
  revert c. induction ops as [|op ops IH]; intros c Hc; [done|].
  simpl. apply IH. destruct Hc as [Hc _]. by apply perform_tidy.
Qed.

(** C9.  Start with nothing stored under the favourites key and a freshly
    initialised hook.  After any sequence of add, remove, toggle and clear,
    with any of the storage calls on the way failing, the component's
    favourites are an array of pairwise distinct ids, and so is what a
    load from the store returns. *)
Theorem favorites_never_duplicate (w : World) (ops : list Operation) :
  stored w = None →
  let c := perform_all ops (useFavorites.initial w) in
  (∃ ids, useFavorites.favorites c = number_array ids ∧ NoDup ids)
  ∧ (∃ ids, loads (useFavorites.world c) ids ∧ NoDup ids).
Proof.
  intros Hempty c.
  assert (tidy (useFavorites.initial w)) as Hinit.
  { split; [by left|]. exists []. split; [apply NoDup_nil_2|done]. }
  destruct (perform_all_tidy ops _ Hinit) as [Hclean (ids & Hnd & Hf)].
  split; [by exists ids|].
  destruct (load_clean _ Hclean) as (ids' & Hnd' & Hl' & _). by exists ids'.
Qed.

(** *** Loading *)

(** C3 (as the code has it).  [getFavorites] never throws and never
    changes the storage.  It returns the empty array when the key is
    absent, when it holds the empty string, when its text fails to parse,
    and when the storage itself cannot be read.  The two failures, a read
    the storage refuses and a text that does not parse, are logged: each
    adds one line to the console, headed by the read error message; a
    load without failure adds none.  A text that parses is returned as
    parsed, without a check of its shape: the array of ids when the text
    encodes one. *)
Theorem getFavorites_never_throws (w : World) :
  ∃ value w',
    utils.getFavorites w = (Normal value, w')
    ∧ (stored w = None → value = JArray [])
    ∧ (stored w = Some "" → value = JArray [])
    ∧ (∀ text, stored w = Some text → JSON_parse text = None → value = JArray [])
    ∧ ((next_fault w).1 = true → value = JArray [])
    ∧ (∀ text parsed,
         stored w = Some text → text ≠ "" → JSON_parse text = Some parsed →
         (next_fault w).1 = false → value = parsed)
    ∧ (∀ ids,
         stored w = Some (JSON_stringify (number_array ids)) →
         (next_fault w).1 = false → value = number_array ids)
    ∧ localStorage w' = localStorage w
    ∧ ((next_fault w).1 = true →
       ∃ error, console w' = console w ++ [(read_error, error)])
    ∧ (∀ text,
         (next_fault w).1 = false →
         stored w = Some text → text ≠ "" → JSON_parse text = None →
         ∃ error, console w' = console w ++ [(read_error, error)])
    ∧ ((next_fault w).1 = false →
       (stored w = None ∨ stored w = Some ""
        ∨ ∃ text parsed, stored w = Some text ∧ JSON_parse text = Some parsed) →
       console w' = console w).
Proof.
  rewrite getFavorites_unfold. pose proof (next_fault_stored w) as Hs.
  assert (localStorage (next_fault w).2 = localStorage w
          ∧ console (next_fault w).2 = console w) as [Hsame Hconsole]
    by (unfold next_fault; by destruct (faults w)).
  destruct (next_fault w) as [[|] w1]; cbn [fst snd] in *.
  - eexists _, _. split; [done|]. repeat split; try done.
    exists "SecurityError". cbn. by rewrite Hconsole.
  - eexists _, _. split; [done|]. unfold decode. rewrite Hs.
    repeat split.
    + by intros ->.
    + by intros ->.
    + intros text -> Hp. destruct (decide (text = "")); [done|]. by rewrite Hp.
    + done.
    + intros text parsed -> Hne Hp _. rewrite decide_False by done. by rewrite Hp.
    + intros ids -> _. rewrite decide_False by apply JSON_stringify_array.
      by rewrite JSON_parse_stringify.
    + destruct (stored w) as [text|]; [|done].
      destruct (decide (text = "")); [done|]. by destruct (JSON_parse text).
    + done.
    + intros text _ -> Hne Hp. rewrite decide_False by done. rewrite Hp.
      exists "SyntaxError". cbn. by rewrite Hconsole.
    + intros _ [->|[->|(text & parsed & -> & Hp)]]; try done.
      destruct (decide (text = "")); [done|]. by rewrite Hp.
Qed.

(** *** Write failures *)

Lemma saveFavorites_failed (value : JsonValue) (w : World) :
  (next_fault w).1 = true →
  utils.saveFavorites value w
  = (Normal (), logged save_error "QuotaExceededError" (next_fault w).2).
Proof. intros Hf. by rewrite saveFavorites_unfold, Hf. Qed.

(** C10.  Let a load in world [w] yield the list [ids]; the storage calls
    that follow may fail or not.  Then [addToFavorites] and
    [removeFromFavorites] return normally with the updated array, and
    [clearFavorites] returns normally, the hook resetting its state to the
    empty array.  A write that fails is caught inside [saveFavorites]:
    it returns normally, leaves the storage as it was and adds one line
    to the console. *)
Theorem write_failure_is_only_logged (movieId : Z) (w : World) (ids : list Z) :
  loads w ids →
  (utils.addToFavorites movieId w).1 = Normal (number_array (add_id movieId ids))
  ∧ (utils.removeFromFavorites movieId w).1
    = Normal (number_array (remove_id movieId ids))
  ∧ (utils.clearFavorites w).1 = Normal ()
  ∧ (∀ c : useFavorites.Component,
       (useFavorites.clearFavorites c).1 = Normal ()
       ∧ useFavorites.favorites (useFavorites.clearFavorites c).2 = JArray [])
  ∧ (∀ value w',
       (next_fault w').1 = true →
       (utils.saveFavorites value w').1 = Normal ()
       ∧ localStorage (utils.saveFavorites value w').2 = localStorage w'
       ∧ console (utils.saveFavorites value w').2
         = console w' ++ [(save_error, "QuotaExceededError")]).
Proof.
  intros Hl. split; [by apply addToFavorites_value|].
  split; [by apply removeFromFavorites_value|].
  split; [by rewrite clearFavorites_unfold|]. split.
  - intros c.
    unfold useFavorites.clearFavorites, bind, useFavorites.lift, useFavorites.setFavorites.
    pose proof (clearFavorites_unfold (useFavorites.world c)) as Hu.
    destruct (utils.clearFavorites (useFavorites.world c)) as [r w'].
    by injection Hu as -> Hu.
  - intros value w' Hf. rewrite (saveFavorites_failed _ _ Hf). cbn [fst snd].
    split; [done|]. unfold next_fault in *.
    destruct (faults w') as [|f rest]; [done|]. by destruct f.
Qed.

(** *** Persistence *)

Lemma addToFavorites_then_load (movieId : Z) (w : World) (ids : list Z) :
  faults w = [] → loads w ids →
  ∃ value, (utils.addToFavorites movieId w).1 = Normal value
           ∧ (utils.getFavorites (utils.addToFavorites movieId w).2).1 = Normal value.
Proof.
  intros Hw Hl. exists (number_array (add_id movieId ids)).
  split; [by apply addToFavorites_value|]. by apply addToFavorites_reliable.
Qed.

Lemma removeFromFavorites_then_load (movieId : Z) (w : World) (ids : list Z) :
  faults w = [] → loads w ids →
  ∃ value, (utils.removeFromFavorites movieId w).1 = Normal value
           ∧ (utils.getFavorites (utils.removeFromFavorites movieId w).2).1 = Normal value.
Proof.
  intros Hw Hl. exists (number_array (remove_id movieId ids)).
  split; [by apply removeFromFavorites_value|]. by apply removeFromFavorites_reliable.
Qed.

Lemma round_trip_5_7 (w : World) :
  faults w = [] → loads w [] →
  (bind utils.getFavorites (λ _,
     bind (utils.addToFavorites 5) (λ _,
       bind (utils.addToFavorites 7) (λ _,
         bind (utils.removeFromFavorites 5) (λ _, utils.getFavorites)))) w).1
  = Normal (number_array [7%Z]).
Proof.
  intros Hw Hl.
  destruct (loads_after_load _ _ Hw Hl) as [Hw1 Hl1].
  rewrite (bind_normal _ _ _ _ Hl).
  destruct (addToFavorites_reliable 5 _ _ Hw1 Hl1) as [Hw2 Hl2].
  rewrite (bind_normal _ _ _ _ (addToFavorites_value 5 _ _ Hl1)).
  destruct (addToFavorites_reliable 7 _ _ Hw2 Hl2) as [Hw3 Hl3].
  rewrite (bind_normal _ _ _ _ (addToFavorites_value 7 _ _ Hl2)).
  destruct (removeFromFavorites_reliable 5 _ _ Hw3 Hl3) as [Hw4 Hl4].
  rewrite (bind_normal _ _ _ _ (removeFromFavorites_value 5 _ _ Hl3)).
  exact Hl4.
Qed.

Lemma addToFavorites_present (movieId : Z) (w : World) (ids : list Z) :
  faults w = [] → loads w ids → movieId ∈ ids →
  utils.addToFavorites movieId w = (Normal (number_array ids), w).
Proof.
  intros Hw Hl Hin. pose proof (decode_reliable_loads w ids Hw Hl) as Hd.
  rewrite (addToFavorites_unfold _ _ _ Hl), decide_True by done.
  rewrite (getFavorites_reliable w Hw). cbn [snd]. rewrite decode_unchanged; [done|].
  rewrite Hd. unfold number_array. destruct ids; [by apply elem_of_nil in Hin|done].
Qed.

Lemma stored_after_add (movieId : Z) (w : World) (ids : list Z) :
  faults w = [] → loads w ids → movieId ∉ ids →
  stored (utils.addToFavorites movieId w).2
  = Some (JSON_stringify (number_array (ids ++ [movieId]))).
Proof.
  intros Hw Hl Hout. rewrite (addToFavorites_unfold _ _ _ Hl), decide_False by done.
  cbn [snd]. destruct (loads_after_load w ids Hw Hl) as [Hw1 _].
  rewrite (saveFavorites_reliable _ _ Hw1). cbn [snd].
  unfold stored, written. simpl. by rewrite lookup_insert_eq.
Qed.

Lemma stored_after_remove (movieId : Z) (w : World) (ids : list Z) :
  faults w = [] → loads w ids →
  stored (utils.removeFromFavorites movieId w).2
  = Some (JSON_stringify (number_array (remove_id movieId ids))).
Proof.
  intros Hw Hl. rewrite (removeFromFavorites_unfold _ _ _ Hl). cbn [snd].
  destruct (loads_after_load w ids Hw Hl) as [Hw1 _].
  rewrite (saveFavorites_reliable _ _ Hw1). cbn [snd].
  unfold stored, written. simpl. by rewrite lookup_insert_eq.
Qed.

Lemma stored_after_clear (w : World) :
  faults w = [] → stored (utils.clearFavorites w).2 = None.
Proof.
  intros Hw. rewrite clearFavorites_unfold, (next_fault_reliable w Hw). cbn [fst snd].
  unfold stored. cbn [localStorage with_localStorage]. by rewrite lookup_delete_eq.
Qed.

Lemma saveFavorites_refused (value : JsonValue) (w : World) :
  (next_fault w).1 = true →
  (utils.saveFavorites value w).1 = Normal ()
  ∧ stored (utils.saveFavorites value w).2 = stored w
  ∧ ∃ error, console (utils.saveFavorites value w).2 = console w ++ [(save_error, error)].
Proof.
  intros Hf. rewrite (saveFavorites_failed _ _ Hf). cbn [fst snd].
  assert (console (next_fault w).2 = console w) as Hconsole
    by (unfold next_fault; by destruct (faults w)).
  split; [done|]. split.
  - change (stored (logged save_error "QuotaExceededError" (next_fault w).2))
      with (stored (next_fault w).2). apply next_fault_stored.
  - exists "QuotaExceededError". cbn. by rewrite Hconsole.
Qed.

(** C5 (as the code has it).  On a world whose storage calls succeed and
    whose store loads a list of ids, the hook is in step with the store
    after mounting and after any sequence of operations: the array the
    component holds is the array a load returns, and it is the list the
    operations compute.  Likewise the array [addToFavorites] or
    [removeFromFavorites] returns is the one the next load returns.  On a
    store that loads as empty, the sequence load, add 5, add 7, remove 5,
    load ends with the array [[7]].  The writes: adding a new id and
    removing an id leave the store holding the encoding of the new list,
    clearing leaves the key absent, and adding an id that is already
    stored changes nothing.  A write the storage refuses, in any world, is
    caught: [saveFavorites] returns normally, the store keeps what it
    held, and the console gets one line. *)
Theorem persisted_view_matches_memory (w : World) (ids : list Z)
    (ops : list Operation) :
  faults w = [] → loads w ids →
  in_sync (perform_all ops (useFavorites.load_on_mount (useFavorites.initial w)).2)
          (foldl (λ ids op, apply_op op ids) ids ops)
  ∧ (∀ movieId, ∃ value,
       (utils.addToFavorites movieId w).1 = Normal value
       ∧ (utils.getFavorites (utils.addToFavorites movieId w).2).1 = Normal value)
  ∧ (∀ movieId, ∃ value,
       (utils.removeFromFavorites movieId w).1 = Normal value
       ∧ (utils.getFavorites (utils.removeFromFavorites movieId w).2).1 = Normal value)
  ∧ (ids = [] →
     (bind utils.getFavorites (λ _,
        bind (utils.addToFavorites 5) (λ _,
          bind (utils.addToFavorites 7) (λ _,
            bind (utils.removeFromFavorites 5) (λ _, utils.getFavorites)))) w).1
     = Normal (number_array [7%Z]))
  ∧ (∀ movieId, movieId ∉ ids →
       stored (utils.addToFavorites movieId w).2
       = Some (JSON_stringify (number_array (ids ++ [movieId]))))
  ∧ (∀ movieId,
       stored (utils.removeFromFavorites movieId w).2
       = Some (JSON_stringify (number_array (remove_id movieId ids))))
  ∧ stored (utils.clearFavorites w).2 = None
  ∧ (∀ movieId, movieId ∈ ids →
       utils.addToFavorites movieId w = (Normal (number_array ids), w))
  ∧ (∀ value w',
       (next_fault w').1 = true →
       (utils.saveFavorites value w').1 = Normal ()
       ∧ stored (utils.saveFavorites value w').2 = stored w'
       ∧ ∃ error,
           console (utils.saveFavorites value w').2 = console w' ++ [(save_error, error)]).
Proof.
  intros Hw Hl. split.
  { apply perform_all_reliable. by apply load_on_mount_reliable. }
  split; [intros movieId; by eapply addToFavorites_then_load|].
  split; [intros movieId; by eapply removeFromFavorites_then_load|].
  split; [intros ->; by apply round_trip_5_7|].
  split; [intros movieId; by apply stored_after_add|].
  split; [intros movieId; by apply stored_after_remove|].
  split; [by apply stored_after_clear|].
  split; [intros movieId; by apply addToFavorites_present|].
  intros value w'. apply saveFavorites_refused.
Qed.

End store_facts.






(** ** The reference runtime satisfies the interface *)

Module reference_facts.
Import reference.

Lemma append_cons (c : ascii) (s t : string) : String c s +:+ t = String c (s +:+ t).
Proof. reflexivity. Qed.

Lemma append_nil_r (s : string) : s +:+ "" = s.
Proof. induction s as [|c s IH]; [done|]. by rewrite append_cons, IH. Qed.

Lemma append_assoc (s1 s2 s3 : string) : (s1 +:+ s2) +:+ s3 = s1 +:+ (s2 +:+ s3).
Proof. induction s1 as [|c s1 IH]; [done|]. by rewrite !append_cons, IH. Qed.

Lemma plain_uint (d : Decimal.uint) : plain (NilEmpty.string_of_uint d).
Proof. induction d; simpl; repeat split; done. Qed.

Lemma plain_Z_toString (z : Z) : plain (Z_toString z).
Proof.
  unfold Z_toString, NilZero.string_of_int, NilZero.string_of_uint.
  destruct (Z.to_int z) as [d|d].
  - destruct d; try apply plain_uint. simpl. repeat split; done.
  - simpl. split; [done|]. split; [done|].
    destruct d; try apply plain_uint. simpl. repeat split; done.
Qed.

Lemma Z_toString_nonempty (z : Z) :
  ∃ c rest, Z_toString z = String c rest ∧ c ≠ "]"%char.
Proof.
  pose proof (plain_Z_toString z) as Hp.
  assert (Z_toString z ≠ "") as Hne.
  { unfold Z_toString, NilZero.string_of_int, NilZero.string_of_uint.
    destruct z as [|p|p]; simpl; try done.
    - pose proof (Unsigned.to_uint_nonnil p) as Hn.
      destruct (Pos.to_uint p); done.
    }
  destruct (Z_toString z) as [|c rest]; [done|].
  exists c, rest. split; [done|]. simpl in Hp. tauto.
Qed.

Lemma parse_integer_Z_toString (z : Z) : parse_integer (Z_toString z) = Some z.
Proof.
  unfold parse_integer. unfold Z_toString at 1.
  rewrite NilZero.isi.
  - rewrite DecimalZ.of_to. by rewrite decide_True.
  - destruct z as [|p|p]; simpl; try done.
    intros [= H]. by apply (Unsigned.to_uint_nonnil p).
  - destruct z as [|p|p]; simpl; try done.
    intros [= H]. by apply (Unsigned.to_uint_nonnil p).
Qed.

Lemma mapM_parse_integer (ids : list Z) :
  mapM parse_integer (Z_toString <$> ids) = Some ids.
Proof.
  induction ids as [|z ids IH]; [done|].
  rewrite fmap_cons. cbn [mapM]. rewrite parse_integer_Z_toString. simpl.
  by rewrite IH.
Qed.

Lemma split_items_plain (s rest item : string) :
  plain s → split_items (s +:+ rest) item = split_items rest (item +:+ s).
Proof.
  revert item. induction s as [|c s IH]; intros item Hp.
  - by rewrite append_nil_r.
  - destruct Hp as (Hcomma & Hbracket & Hp). rewrite append_cons. cbn [split_items].
    rewrite (proj2 (Ascii.eqb_neq c "]"%char)) by done.
    rewrite (proj2 (Ascii.eqb_neq c ","%char)) by done.
    rewrite IH by done. by rewrite append_assoc.
Qed.

Lemma split_items_join (item : string) (x : string) (xs : list string) :
  Forall plain (x :: xs) →
  split_items (join "," (x :: xs) +:+ "]") item = Some ((item +:+ x) :: xs).
Proof.
  revert item x. induction xs as [|y ys IH]; intros item x Hp.
  - apply Forall_cons in Hp as [Hx _]. cbn [join].
    rewrite split_items_plain by done. done.
  - apply Forall_cons in Hp as [Hx Hp].
    change (join "," (x :: y :: ys)) with (x +:+ "," +:+ join "," (y :: ys)).
    rewrite !append_assoc, split_items_plain by done.
    change ("," +:+ join "," (y :: ys) +:+ "]")
      with (String ","%char (join "," (y :: ys) +:+ "]")).
    cbn [split_items]. cbn [Ascii.eqb Bool.eqb].
    by rewrite IH.
Qed.

Lemma stringify_number_array (ids : list Z) :
  stringify (number_array ids) = "[" +:+ join "," (Z_toString <$> ids) +:+ "]".
Proof.
  unfold number_array. cbn [stringify]. by rewrite <- list_fmap_compose.
Qed.

Lemma parse_stringify (ids : list Z) :
  parse (stringify (number_array ids)) = Some (number_array ids).
Proof.
  rewrite stringify_number_array. destruct ids as [|z ids]; [done|].
  change ("[" +:+ join "," (Z_toString <$> z :: ids) +:+ "]")
    with (String "["%char (join "," (Z_toString <$> z :: ids) +:+ "]")).
  assert (Forall plain (Z_toString <$> z :: ids)) as Hp.
  { apply Forall_fmap, Forall_forall. intros x _. apply plain_Z_toString. }
  destruct (Z_toString_nonempty z) as (c & rest & Hz & Hc).
  unfold parse.
  rewrite decide_False by done. rewrite decide_False by done.
  rewrite decide_False by done.
  rewrite decide_False.
  - rewrite fmap_cons in *. rewrite split_items_join by done. simpl.
    change ("" +:+ Z_toString z) with (Z_toString z).
    rewrite parse_integer_Z_toString. simpl.
    rewrite mapM_parse_integer. done.
  - rewrite fmap_cons. destruct ids as [|z' ids]; cbn [fmap list_fmap join];
      rewrite Hz; simpl; intros [= ? ?]; done.
Qed.

Lemma stringify_array_nonempty (elements : list JsonValue) :
  stringify (JArray elements) ≠ "".
Proof. done. Qed.

End reference_facts.

(** The reference runtime, storing the favourites under ["favorites"]. *)
Definition reference_runtime : Runtime :=
  {| FAVORITES_STORAGE_KEY := "favorites";
     JSON_parse := reference.parse;
     JSON_stringify := reference.stringify;
     JSON_parse_stringify := reference_facts.parse_stringify;
     JSON_stringify_array := reference_facts.stringify_array_nonempty |}.

(** ** The store on concrete worlds *)

Section concrete_worlds.
Local Existing Instance reference_runtime.

Example load_1_5_2 : (utils.getFavorites world_1_5_2).1 = Normal (number_array [1; 5; 2]%Z).
Proof. vm_compute. reflexivity. Qed.

Example toggle_5_twice :
  useFavorites.favorites
    (perform_all [Toggle 5; Toggle 5] (useFavorites.initial world_1_5_2))
  = number_array [1; 2; 5]%Z.
Proof. vm_compute. reflexivity. Qed.

Example load_corrupt :
  utils.getFavorites
    {| localStorage := {["favorites" := "[1,"]}; faults := []; console := [] |}
  = (Normal (JArray []),
     {| localStorage := {["favorites" := "[1,"]}; faults := [];
        console := [("Error reading favorites from localStorage:", "SyntaxError")] |}).
Proof. vm_compute. reflexivity. Qed.

(** C3, as stated, fails: with the valid JSON document [7] under the key,
    [getFavorites] returns the number 7, which is no array of ids. *)
Lemma getFavorites_returns_a_non_array :
  (utils.getFavorites world_number).1 = Normal (JNumber 7)
  ∧ ¬ ∃ ids, (utils.getFavorites world_number).1 = Normal (number_array ids).
Proof.
  assert ((utils.getFavorites world_number).1 = Normal (JNumber 7)) as H
    by (vm_compute; reflexivity).
  split; [exact H|]. rewrite H. intros [ids Hids]. discriminate Hids.
Qed.

(** C5, as stated, fails: when the write is refused, [addToFavorites 5]
    returns the array [[5]] while the store still loads as empty. *)
Lemma failed_write_diverges :
  (utils.addToFavorites 5 world_write_fails).1 = Normal (number_array [5%Z])
  ∧ (utils.getFavorites (utils.addToFavorites 5 world_write_fails).2).1
    = Normal (number_array [])
  ∧ (utils.getFavorites (utils.addToFavorites 5 world_write_fails).2).1
    ≠ (utils.addToFavorites 5 world_write_fails).1.
Proof.
  assert ((utils.addToFavorites 5 world_write_fails).1 = Normal (number_array [5%Z]))
    as Hadd by (vm_compute; reflexivity).
  assert ((utils.getFavorites (utils.addToFavorites 5 world_write_fails).2).1
          = Normal (number_array [])) as Hload by (vm_compute; reflexivity).
  split; [exact Hadd|]. split; [exact Hload|].
  rewrite Hadd, Hload. discriminate.
Qed.

(** C4, as stated, fails.  When the first write is refused, adding 5 twice
    leaves the store holding [[5]] where adding it once leaves it empty.
    And with every call succeeding, toggling 5 twice turns the stored list
    1, 5, 2 into 1, 2, 5. *)
Lemma refused_write_breaks_idempotence :
  stored (utils.addToFavorites 5 world_write_fails).2 = None
  ∧ stored (bind (utils.addToFavorites 5) (λ _, utils.addToFavorites 5)
              world_write_fails).2
    = Some "[5]"
  ∧ bind (utils.addToFavorites 5) (λ _, utils.addToFavorites 5) world_write_fails
    ≠ utils.addToFavorites 5 world_write_fails
  ∧ stored world_1_5_2 = Some "[1,5,2]"
  ∧ stored (useFavorites.world
              (perform_all [Toggle 5; Toggle 5] (useFavorites.initial world_1_5_2)))
    = Some "[1,2,5]".
Proof.
  assert (stored (utils.addToFavorites 5 world_write_fails).2 = None) as Honce
    by (vm_compute; reflexivity).
  assert (stored (bind (utils.addToFavorites 5) (λ _, utils.addToFavorites 5)
                    world_write_fails).2 = Some "[5]") as Htwice
    by (vm_compute; reflexivity).
  split; [exact Honce|]. split; [exact Htwice|]. split.
  - intros Heq. rewrite Heq, Honce in Htwice. discriminate.
  - split; vm_compute; reflexivity.
Qed.

Lemma getFavorites_never_throws_witness :
  ∃ value w', utils.getFavorites world_number = (Normal value, w').
Proof.
  destruct (getFavorites_never_throws world_number) as (value & w' & Hrun & _).
  exists value, w'. exact Hrun.
Defined.

Lemma favorites_idempotence_witness :
  faults world_1_5_2 = [] ∧ loads world_1_5_2 [1; 5; 2]%Z
  ∧ bind (utils.addToFavorites 7) (λ _, utils.addToFavorites 7) world_1_5_2
    = utils.addToFavorites 7 world_1_5_2.
Proof.
  assert (faults world_1_5_2 = []) as Hw by reflexivity.
  assert (loads world_1_5_2 [1; 5; 2]%Z) as Hl by (vm_compute; reflexivity).
  split; [exact Hw|]. split; [exact Hl|].
  exact (proj1 (favorites_idempotence 7 world_1_5_2 [1; 5; 2]%Z Hw Hl)).
Defined.

Lemma persisted_view_matches_memory_witness :
  faults world_empty = [] ∧ loads world_empty []
  ∧ in_sync
      (perform_all [Add 5; Add 7; Remove 5]
         (useFavorites.load_on_mount (useFavorites.initial world_empty)).2)
      [7%Z].
Proof.
  assert (faults world_empty = []) as Hw by reflexivity.
  assert (loads world_empty []) as Hl by (vm_compute; reflexivity).
  split; [exact Hw|]. split; [exact Hl|].
  exact (proj1 (persisted_view_matches_memory world_empty [] [Add 5; Add 7; Remove 5]
                  Hw Hl)).
Defined.

Lemma favorites_never_duplicate_witness :
  stored world_write_fails = None
  ∧ ∃ ids,
      useFavorites.favorites
        (perform_all [Add 5; Toggle 5; Add 5; Add 5]
           (useFavorites.initial world_write_fails))
      = number_array ids
      ∧ NoDup ids.
Proof.
  assert (stored world_write_fails = None) as Hs by reflexivity.
  split; [exact Hs|].
  exact (proj1 (favorites_never_duplicate world_write_fails
                  [Add 5; Toggle 5; Add 5; Add 5] Hs)).
Defined.

Lemma write_failure_is_only_logged_witness :
  loads world_write_fails []
  ∧ (utils.addToFavorites 5 world_write_fails).1 = Normal (number_array [5%Z]).
Proof.
  assert (loads world_write_fails []) as Hl by (vm_compute; reflexivity).
  split; [exact Hl|].
  exact (proj1 (write_failure_is_only_logged 5 world_write_fails [] Hl)).
Defined.

End concrete_worlds.

(** ** The list controller *)

Lemma message_or_nonempty (err : JsError) (fallback : string) :
  fallback ≠ "" → message_or err fallback ≠ "".
Proof.
  intros Hf. unfold message_or. destruct (message err) as [text|]; [|done].
  by destruct (decide (text = "")).
Qed.

Section list_facts.
Import movieService MoviesList.
Context {Num : JsNumber}.
Variable DEFAULT_PAGE_SIZE : number.

Lemma handleFiltersChange_replace (newFilters : MovieFilters Num) (s : State) :
  handleFiltersChange newFilters s = replace_filters newFilters s.
Proof. reflexivity. Qed.

Lemma handlePageChange_replace (page : number) (s : State) :
  handlePageChange page s
  = replace_filters (with_property (props (filters s)) "page" (VNumber page)) s.
Proof. reflexivity. Qed.

Lemma onRetry_replace (s : State) : onRetry s = replace_filters (props (filters s)) s.
Proof. reflexivity. Qed.

(** A fresh object always differs in identity, so the effect runs: one
    request goes out, for the new properties. *)
Lemma replace_filters_spec (properties : MovieFilters Num) (s : State) :
  identity (filters s) < next_identity s →
  replace_filters properties s
  = {| movies := movies s; loading := true; error := None;
       totalPages := totalPages s;
       filters := {| identity := next_identity s; props := properties |};
       next_identity := S (next_identity s);
       issued := issued s ++ [getMovies_url (Some properties)];
       pending := pending s ++ [length (issued s)] |}.
Proof.
  intros Hfresh. unfold replace_filters, new_object, setFilters.
  cbn [identity filters]. rewrite decide_False by lia. done.
Qed.

Lemma replace_filters_consistent (properties : MovieFilters Num) (s : State) :
  consistent s → consistent (replace_filters properties s).
Proof.
  intros [Hfresh _]. rewrite replace_filters_spec by done.
  split; cbn [identity filters next_identity issued props]; [lia|].
  by rewrite last_snoc.
Qed.

Lemma fetchMovies_resume_frame (o : Settlement PaginatedResponse) (s : State) :
  filters (fetchMovies_resume o s) = filters s
  ∧ next_identity (fetchMovies_resume o s) = next_identity s
  ∧ issued (fetchMovies_resume o s) = issued s
  ∧ pending (fetchMovies_resume o s) = pending s.
Proof. by destruct o. Qed.

Lemma settle_consistent (request : nat) (o : Settlement PaginatedResponse)
    (s s' : State) :
  settle request o s = Some s' → consistent s → consistent s'.
Proof.
  unfold settle. destruct (decide (request ∈ pending s)); [|done].
  intros [= <-] [Hfresh Hlast].
  destruct (fetchMovies_resume_frame o
    {| movies := movies s; loading := loading s; error := error s;
       totalPages := totalPages s; filters := filters s;
       next_identity := next_identity s; issued := issued s;
       pending := filter (λ r, r ≠ request) (pending s) |}) as (Hf & Hn & Hi & _).
  unfold consistent. by rewrite Hf, Hn, Hi.
Qed.

Lemma step_consistent (s s' : State) (e : Event) :
  step s e = Some s' → consistent s → consistent s'.
Proof.
  destruct e as [newFilters|page| |request o]; simpl.
  - destruct (render s); try done. intros [= <-].
    rewrite handleFiltersChange_replace. apply replace_filters_consistent.
  - destruct (render s) as [| |[|] [|m shown] [|]]; try done. intros [= <-].
    rewrite handlePageChange_replace. apply replace_filters_consistent.
  - destruct (render s); try done. intros [= <-].
    rewrite onRetry_replace. apply replace_filters_consistent.
  - apply settle_consistent.
Qed.

Lemma mount_consistent : consistent (mount DEFAULT_PAGE_SIZE).
Proof. split; [simpl; lia|done]. Qed.

Lemma run_consistent (events : list Event) (s s' : State) :
  run s events = Some s' → consistent s → consistent s'.
Proof.
  revert s. induction events as [|e events IH]; intros s; simpl.
  - by intros [= <-].
  - destruct (step s e) as [s1|] eqn:Hstep; [|done].
    intros Hrun Hs. eapply IH; [done|]. by eapply step_consistent.
Qed.

(** C1 (as the code has it).  The controller has no staleness check.
    Whenever a request that is in flight is fulfilled, its data is
    published: the list shows the response's data (or nothing if it has
    none), whichever request it answers and whatever the filters have
    become since.  The request issued last is always the one for the
    current filters; so the published data answers the query of the
    current filters when it is that request which has just settled. *)
Theorem response_is_published_on_arrival
    (events : list Event) (s : State) (request : nat) (response : PaginatedResponse) :
  run (mount DEFAULT_PAGE_SIZE) events = Some s →
  request ∈ pending s →
  ∃ s', step s (Settled request (Fulfilled response)) = Some s'
        ∧ movies s' = default [] (data response)
        ∧ totalPages s' = total_pages_or_1 response
        ∧ loading s' = false
        ∧ filters s' = filters s
        ∧ issued s' = issued s
        ∧ (request = latest_request s →
           issued s !! request = Some (getMovies_url (Some (props (filters s'))))).
Proof.
  intros Hrun Hpending.
  pose proof (run_consistent _ _ _ Hrun mount_consistent) as [_ Hlast].
  cbn [step]. unfold settle. rewrite decide_True by done.
  eexists. split; [done|]. repeat split; try done.
  intros ->. unfold latest_request. by rewrite <- last_lookup.
Qed.

Lemma retry_in_error_view (s : State) (text : string) :
  consistent s → render s = ErrorMessage text →
  ∃ s', step s RetryClicked = Some s'
        ∧ issued s' = issued s ++ [getMovies_url (Some (props (filters s)))]
        ∧ last (issued s) = Some (getMovies_url (Some (props (filters s))))
        ∧ props (filters s') = props (filters s)
        ∧ pending s' = pending s ++ [length (issued s)]
        ∧ loading s' = true
        ∧ error s' = None.
Proof.
  intros [Hfresh Hlast] Hview.
  cbn [step]. rewrite Hview, onRetry_replace, replace_filters_spec by done.
  eexists. split; [done|]. by repeat split.
Qed.

Lemma rejection_shows_error (request : nat) (err : JsError) (s0 s : State) :
  step s0 (Settled request (Rejected err)) = Some s →
  render s = ErrorMessage (message_or err "Failed to load movies")
  ∧ filters s = filters s0
  ∧ issued s = issued s0.
Proof.
  cbn [step]. unfold settle. destruct (decide (request ∈ pending s0)); [|done].
  intros [= <-]. split; [|done]. unfold render. cbn.
  by rewrite decide_False by (by apply message_or_nonempty).
Qed.

(** C8 (as the code has it).  A rejected request, the current one or a
    superseded one, puts the list in the error state: its message is on
    display and the filters are as they were.  A click on retry then
    issues exactly one request: the log of calls grows by one url, the
    query of the current filters, whose properties the click does not
    change.  That query is the one of the request issued last before the
    click; it is the query of the request that failed when that request
    is the one issued last. *)
Theorem retry_reissues_current_query
    (events : list Event) (s0 s : State) (request : nat) (err : JsError) :
  run (mount DEFAULT_PAGE_SIZE) events = Some s0 →
  step s0 (Settled request (Rejected err)) = Some s →
  render s = ErrorMessage (message_or err "Failed to load movies")
  ∧ props (filters s) = props (filters s0)
  ∧ ∃ s', step s RetryClicked = Some s'
          ∧ issued s' = issued s ++ [getMovies_url (Some (props (filters s)))]
          ∧ last (issued s) = Some (getMovies_url (Some (props (filters s))))
          ∧ props (filters s') = props (filters s)
          ∧ pending s' = pending s ++ [length (issued s)]
          ∧ loading s' = true
          ∧ error s' = None
          ∧ (request = latest_request s →
             issued s !! request = Some (getMovies_url (Some (props (filters s))))
             ∧ last (issued s') = issued s !! request).
Proof.
  intros Hrun Hstep.
  pose proof (run_consistent _ _ _ Hrun mount_consistent) as Hc0.
  pose proof (step_consistent _ _ _ Hstep Hc0) as Hc.
  destruct (rejection_shows_error _ _ _ _ Hstep) as (Hview & Hfilters & _).
  split; [done|]. split; [by rewrite Hfilters|].
  destruct (retry_in_error_view s _ Hc Hview)
    as (s' & Hretry & Hissued & Hlast & Hprops & Hpending & Hloading & Herror).
  exists s'. do 7 (split; [done|]).
  intros ->. unfold latest_request. rewrite <- last_lookup. split; [done|].
  by rewrite Hlast, Hissued, last_snoc.
Qed.

End list_facts.

(** ** Hydration of the favourites page *)

Section hydration_facts.
Import movieService Favorites.






(** With no favourite id, no request goes out, and nothing else happens
    than the spinner being switched off. *)
Lemma hydration_of_nothing (promises : list (nat * Settlement ApiObject)) (s : State) :
  fetchFavoriteMovies [] promises s = setLoading false s.
Proof. reflexivity. Qed.

End hydration_facts.

(** ** The pages on concrete runs *)

Section integer_examples.
Import movieService.
Local Existing Instance integer_numbers.
Local Existing Instance reference_runtime.

Example scenario_params :
  getMovies_url
    (Some [("page", VNumber 1%Z); ("page_size", VNumber 20%Z);
           ("genre", VString "Drama"); ("year", VUndefined);
           ("search", VString ""); ("min_rating", VNumber 7%Z)])
  = "/movies?page=1&page_size=20&genre=Drama&min_rating=7".
Proof. vm_compute. reflexivity. Qed.

Example zero_is_serialised :
  getMovies_params (Some [("min_rating", VNumber 0%Z); ("genre", VNull)])
  = [("min_rating", "0")].
Proof. vm_compute. reflexivity. Qed.

(** C1, as stated, fails: the Comedy filters are current and their data is
    on display when the response of the superseded Drama request arrives;
    it is not discarded but replaces the Comedy data, while the filters
    stay Comedy. *)
Lemma stale_response_overwrites_current_data :
  ∃ s s',
    MoviesList.run (MoviesList.mount 20%Z) comedy_shown = Some s
    ∧ MoviesList.props (MoviesList.filters s) = comedy_filters
    ∧ MoviesList.latest_request s = 2
    ∧ MoviesList.movies s = [comedy_movie]
    ∧ MoviesList.step s (MoviesList.Settled 1 (Fulfilled (one_page [drama_movie])))
      = Some s'
    ∧ MoviesList.props (MoviesList.filters s') = comedy_filters
    ∧ MoviesList.movies s' = [drama_movie].
Proof. eexists _, _. vm_compute. repeat split; reflexivity. Qed.

Lemma response_is_published_on_arrival_witness :
  MoviesList.run (MoviesList.mount 20%Z) comedy_shown
  = Some (default (MoviesList.mount 20%Z)
            (MoviesList.run (MoviesList.mount 20%Z) comedy_shown))
  ∧ 1 ∈ MoviesList.pending
          (default (MoviesList.mount 20%Z)
             (MoviesList.run (MoviesList.mount 20%Z) comedy_shown))
  ∧ ∃ s', MoviesList.step
            (default (MoviesList.mount 20%Z)
               (MoviesList.run (MoviesList.mount 20%Z) comedy_shown))
            (MoviesList.Settled 1 (Fulfilled (one_page [drama_movie]))) = Some s'
          ∧ MoviesList.movies s' = [drama_movie].
Proof.
  assert (MoviesList.run (MoviesList.mount 20%Z) comedy_shown
          = Some (default (MoviesList.mount 20%Z)
                    (MoviesList.run (MoviesList.mount 20%Z) comedy_shown))) as Hrun
    by (vm_compute; reflexivity).
  assert (1 ∈ MoviesList.pending
                (default (MoviesList.mount 20%Z)
                   (MoviesList.run (MoviesList.mount 20%Z) comedy_shown))) as Hpending
    by (vm_compute; apply list_elem_of_here).
  split; [exact Hrun|]. split; [exact Hpending|].
  destruct (response_is_published_on_arrival (Num := integer_numbers) 20%Z comedy_shown _ 1
              (one_page [drama_movie]) Hrun Hpending) as (s' & Hstep & Hmovies & _).
  exists s'. split; [exact Hstep|exact Hmovies].
Defined.

(** C8, as stated, fails: the Drama request fails after the user has moved
    on to Comedy; the error is shown, the filters stay Comedy, and retry
    issues the Comedy query, not the Drama query that failed. *)
Lemma retry_after_superseded_failure :
  ∃ s0 s s',
    MoviesList.run (MoviesList.mount 20%Z) comedy_asked = Some s0
    ∧ MoviesList.step s0
        (MoviesList.Settled 1 (Rejected {| message := Some "Network Error" |}))
      = Some s
    ∧ MoviesList.render s = MoviesList.ErrorMessage "Network Error"
    ∧ MoviesList.props (MoviesList.filters s0) = comedy_filters
    ∧ MoviesList.props (MoviesList.filters s) = comedy_filters
    ∧ MoviesList.issued s !! 1 = Some "/movies?page=1&page_size=20&genre=Drama"
    ∧ MoviesList.step s MoviesList.RetryClicked = Some s'
    ∧ MoviesList.props (MoviesList.filters s') = comedy_filters
    ∧ last (MoviesList.issued s') = Some "/movies?page=1&page_size=20&genre=Comedy".
Proof. eexists _, _, _. vm_compute. repeat split; reflexivity. Qed.

Lemma retry_reissues_current_query_witness :
  MoviesList.run (MoviesList.mount 20%Z) drama_asked
  = Some (default (MoviesList.mount 20%Z)
            (MoviesList.run (MoviesList.mount 20%Z) drama_asked))
  ∧ MoviesList.step
      (default (MoviesList.mount 20%Z)
         (MoviesList.run (MoviesList.mount 20%Z) drama_asked))
      (MoviesList.Settled 1 (Rejected {| message := Some "Network Error" |}))
    = MoviesList.run (MoviesList.mount 20%Z) drama_failed
  ∧ ∃ s', MoviesList.step
            (default (MoviesList.mount 20%Z)
               (MoviesList.run (MoviesList.mount 20%Z) drama_failed))
            MoviesList.RetryClicked = Some s'
          ∧ MoviesList.issued s'
            = ["/movies?page=1&page_size=20";
               "/movies?page=1&page_size=20&genre=Drama";
               "/movies?page=1&page_size=20&genre=Drama"].
Proof.
  assert (MoviesList.run (MoviesList.mount 20%Z) drama_asked
          = Some (default (MoviesList.mount 20%Z)
                    (MoviesList.run (MoviesList.mount 20%Z) drama_asked))) as Hrun
    by (vm_compute; reflexivity).
  assert (MoviesList.step
            (default (MoviesList.mount 20%Z)
               (MoviesList.run (MoviesList.mount 20%Z) drama_asked))
            (MoviesList.Settled 1 (Rejected {| message := Some "Network Error" |}))
          = Some (default (MoviesList.mount 20%Z)
                    (MoviesList.run (MoviesList.mount 20%Z) drama_failed))) as Hstep
    by (vm_compute; reflexivity).
  split; [exact Hrun|]. split; [vm_compute; reflexivity|].
  destruct (retry_reissues_current_query (Num := integer_numbers) 20%Z drama_asked _ _ 1
              {| message := Some "Network Error" |} Hrun Hstep)
    as (_ & _ & s' & Hretry & Hissued & _).
  exists s'. split; [exact Hretry|]. rewrite Hissued. vm_compute. reflexivity.
Defined.


Example hydration_rejected :
  Favorites.render
    (Favorites.fetchFavoriteMovies [5; 7]%Z
       [(1, Fulfilled (Plain first_movie));
        (0, Rejected {| message := Some "Not Found" |})]
       Favorites.initial)
  = Favorites.ErrorMessage "Not Found".
Proof. vm_compute. reflexivity. Qed.

(** C7 on the code.  The favourites page shows movie 5, the only
    favourite.  The user toggles it off on its card: the hook's state
    becomes the empty array, the effect runs for the empty list, issues no
    request and returns early, and the page keeps showing movie 5.
    [handleClearAll], the other way of emptying the favourites, does reset
    the list. *)
Lemma hydration_of_nothing_keeps_the_old_list :
  let shown :=
    Favorites.fetchFavoriteMovies [5%Z]
      [(0, Fulfilled (Envelope true (Some first_movie)))] Favorites.initial in
  let after := Favorites.fetchFavoriteMovies [] [] shown in
  Favorites.favoriteMovies shown = [Plain first_movie]
  ∧ useFavorites.favorites
      (perform_all [Toggle 5]
         (useFavorites.load_on_mount (useFavorites.initial world_5)).2)
    = number_array []
  ∧ Favorites.issued after = Favorites.issued shown
  ∧ Favorites.favoriteMovies after = [Plain first_movie]
  ∧ Favorites.render after = Favorites.Grid [Plain first_movie]
  ∧ Favorites.favoriteMovies (Favorites.handleClearAll shown) = [].
Proof. vm_compute. repeat split; reflexivity. Qed.

End integer_examples.

(* ===================================================================== *)
(** * Part IV: further properties of the code                             *)
(* ===================================================================== *)

(** ** More on the favourites store *)

Section store_more.
Context {R : Runtime}.

Lemma isFavorite_loads (movieId : Z) (w : World) (ids : list Z) :
  loads w ids → (utils.isFavorite movieId w).1 = Normal (bool_decide (movieId ∈ ids)).
Proof. intros Hl. by rewrite (isFavorite_unfold _ _ _ Hl). Qed.

(** X1.  Membership follows the updates.  On a world whose storage calls
    succeed and whose store loads a list of ids: after [addToFavorites]
    of an id, [isFavorite] of it is true; after [removeFromFavorites], and
    after [clearFavorites], it is false; and adding or removing one id
    does not change the answer for any other id. *)
Theorem isFavorite_after_update (movieId other : Z) (w : World) (ids : list Z) :
  faults w = [] → loads w ids →
  (utils.isFavorite movieId (utils.addToFavorites movieId w).2).1 = Normal true
  ∧ (utils.isFavorite movieId (utils.removeFromFavorites movieId w).2).1 = Normal false
  ∧ (utils.isFavorite movieId (utils.clearFavorites w).2).1 = Normal false
  ∧ (other ≠ movieId →
     (utils.isFavorite other (utils.addToFavorites movieId w).2).1
       = (utils.isFavorite other w).1
     ∧ (utils.isFavorite other (utils.removeFromFavorites movieId w).2).1
       = (utils.isFavorite other w).1).
Proof.
  intros Hw Hl.
  destruct (addToFavorites_reliable movieId w ids Hw Hl) as [_ Hadd].
  destruct (removeFromFavorites_reliable movieId w ids Hw Hl) as [_ Hrem].
  destruct (loads_after_clear w Hw) as [_ Hclr].
  rewrite !(isFavorite_loads _ _ _ Hadd), !(isFavorite_loads _ _ _ Hrem),
    (isFavorite_loads _ _ _ Hclr), (isFavorite_loads _ _ _ Hl).
  split; [by rewrite bool_decide_true by (apply elem_of_add_id; by left)|].
  split; [rewrite bool_decide_false; [done|]; rewrite elem_of_remove_id; tauto|].
  split; [rewrite bool_decide_false; [done|]; apply not_elem_of_nil|].
  intros Hne. split; f_equal; apply bool_decide_ext.
  - rewrite elem_of_add_id. tauto.
  - rewrite elem_of_remove_id. tauto.
Qed.

(** X2.  The hook's [isFavorite], which looks at the component's state,
    and the store's [isFavorite], which reads the storage, give the same
    answer after mounting and any sequence of the hook's operations, as
    long as the storage calls succeed: both say whether the id is in the
    list the operations compute. *)
Theorem hook_isFavorite_agrees_with_store
    (movieId : Z) (w : World) (ids : list Z) (ops : list Operation) :
  faults w = [] → loads w ids →
  let c := perform_all ops (useFavorites.load_on_mount (useFavorites.initial w)).2 in
  (useFavorites.isFavorite movieId c).1
    = Normal (bool_decide (movieId ∈ foldl (λ ids op, apply_op op ids) ids ops))
  ∧ (utils.isFavorite movieId (useFavorites.world c)).1
    = (useFavorites.isFavorite movieId c).1.
Proof.
  intros Hw Hl c.
  destruct (perform_all_reliable ops _ ids (load_on_mount_reliable w ids Hw Hl))
    as (_ & Hloads & Hmem).
  fold c in Hloads, Hmem.
  assert ((useFavorites.isFavorite movieId c).1
          = Normal (bool_decide (movieId ∈ foldl (λ ids op, apply_op op ids) ids ops)))
    as Hhook.
  { unfold useFavorites.isFavorite. rewrite Hmem. unfold number_array.
    cbn [includes ret fst]. f_equal. apply bool_decide_ext, Exists_number_array. }
  split; [exact Hhook|]. by rewrite Hhook, (isFavorite_loads _ _ _ Hloads).
Qed.

(** X3.  A read that fails costs the stored favourites.  When the read of
    [addToFavorites] or [removeFromFavorites] throws and the write that
    follows succeeds, the function takes the favourites to be empty:
    whatever the store held, it then holds the single new id, or the
    empty array after a removal. *)
Theorem failed_read_overwrites_store (movieId : Z) (w : World) (rest : list bool) :
  faults w = true :: false :: rest →
  (utils.addToFavorites movieId w).1 = Normal (number_array [movieId])
  ∧ stored (utils.addToFavorites movieId w).2
    = Some (JSON_stringify (number_array [movieId]))
  ∧ (utils.removeFromFavorites movieId w).1 = Normal (number_array [])
  ∧ stored (utils.removeFromFavorites movieId w).2
    = Some (JSON_stringify (number_array [])).
Proof.
  intros Hf.
  assert (utils.getFavorites w
          = (Normal (number_array []),
             logged read_error "SecurityError" (with_faults (false :: rest) w))) as Hget.
  { rewrite getFavorites_unfold. unfold next_fault. by rewrite Hf. }
  assert (loads w []) as Hl by (unfold loads; by rewrite Hget).
  rewrite (addToFavorites_unfold movieId w [] Hl),
    (removeFromFavorites_unfold movieId w [] Hl), Hget.
  rewrite decide_False by apply not_elem_of_nil. cbn [fst snd app].
  rewrite !saveFavorites_unfold. unfold next_fault, stored, written. simpl.
  by rewrite !lookup_insert_eq.
Qed.

(** X4.  What touches the storage.  With the storage calls succeeding and
    the store loading a list of ids: adding an id that is already there
    changes nothing at all, neither storage nor console;
    [removeFromFavorites] rewrites the key in every case, also when the id
    is not there and when the key was absent or unreadable, so that the
    store then holds the encoding of the array it returns. *)
Theorem add_present_is_silent_remove_rewrites (movieId : Z) (w : World) (ids : list Z) :
  faults w = [] → loads w ids →
  (movieId ∈ ids → utils.addToFavorites movieId w = (Normal (number_array ids), w))
  ∧ stored (utils.removeFromFavorites movieId w).2
    = Some (JSON_stringify (number_array (remove_id movieId ids)))
  ∧ (movieId ∉ ids →
     stored (utils.addToFavorites movieId w).2
     = Some (JSON_stringify (number_array (ids ++ [movieId])))).
Proof.
  intros Hw Hl. pose proof (decode_reliable_loads w ids Hw Hl) as Hd.
  split; [|split].
  - intros Hin. rewrite (addToFavorites_unfold _ _ _ Hl), decide_True by done.
    rewrite (getFavorites_reliable w Hw). cbn [snd]. rewrite decode_unchanged; [done|].
    rewrite Hd. unfold number_array. destruct ids; [by apply elem_of_nil in Hin|done].
  - rewrite (removeFromFavorites_unfold _ _ _ Hl). cbn [snd].
    destruct (loads_after_load w ids Hw Hl) as [Hw1 _].
    rewrite (saveFavorites_reliable _ _ Hw1). cbn [snd].
    unfold stored, written. simpl. by rewrite lookup_insert_eq.
  - intros Hout. rewrite (addToFavorites_unfold _ _ _ Hl), decide_False by done.
    cbn [snd]. destruct (loads_after_load w ids Hw Hl) as [Hw1 _].
    rewrite (saveFavorites_reliable _ _ Hw1). cbn [snd].
    unfold stored, written. simpl. by rewrite lookup_insert_eq.
Qed.

Lemma foldl_add_fresh (ids base : list Z) :
  NoDup (base ++ ids) →
  foldl (λ ids op, apply_op op ids) base (Add <$> ids) = base ++ ids.
Proof.
  revert base. induction ids as [|n ids IH]; intros base Hnd.
  - by rewrite app_nil_r.
  - rewrite fmap_cons. cbn [foldl apply_op]. unfold add_id.
    apply NoDup_app in Hnd as (Hb & Hdisj & Hn).
    rewrite decide_False.
    + rewrite IH; [by rewrite <- app_assoc|]. rewrite <- app_assoc. simpl.
      apply NoDup_app. by repeat split.
    + intros Hin. apply (Hdisj n Hin). left.
Qed.

(** X5.  Insertion order is kept.  Adding pairwise distinct ids, none
    stored yet, one after the other through the hook leaves the component
    and the store holding the old ids followed by the new ones, in the
    order they were added. *)
Theorem favorites_extend_in_insertion_order
    (c : useFavorites.Component) (base ids : list Z) :
  in_sync c base → NoDup (base ++ ids) →
  in_sync (perform_all (Add <$> ids) c) (base ++ ids).
Proof.
  intros Hc Hnd. rewrite <- (foldl_add_fresh ids base Hnd).
  by apply perform_all_reliable.
Qed.

(** X6.  A component whose state is out of date acts on the store, not on
    what it shows.  Let the store hold an id that the component's own
    array lacks (another tab added it).  The hook's [isFavorite] answers
    false; [toggleFavorite] nevertheless takes the id out of the store,
    after which the component and the store agree on the list without
    it. *)
Theorem stale_toggle_removes (movieId : Z) (c : useFavorites.Component)
    (ids shown : list Z) :
  faults (useFavorites.world c) = [] → loads (useFavorites.world c) ids →
  useFavorites.favorites c = number_array shown →
  movieId ∈ ids → movieId ∉ shown →
  (useFavorites.isFavorite movieId c).1 = Normal false
  ∧ (useFavorites.toggleFavorite movieId c).1 = Normal ()
  ∧ in_sync (useFavorites.toggleFavorite movieId c).2 (remove_id movieId ids)
  ∧ (useFavorites.isFavorite movieId (useFavorites.toggleFavorite movieId c).2).1
    = Normal false.
Proof.
  intros Hw Hl Hshown Hin Hout.
  destruct (hook_toggle_reliable movieId c ids Hw Hl) as [Hn Hs].
  unfold toggle_id in Hs. rewrite decide_True in Hs by done.
  split.
  { unfold useFavorites.isFavorite. rewrite Hshown. unfold number_array.
    cbn [includes ret fst]. f_equal. apply bool_decide_eq_false.
    by rewrite Exists_number_array. }
  split; [done|]. split; [done|].
  destruct Hs as (_ & _ & Hmem).
  unfold useFavorites.isFavorite. rewrite Hmem. unfold number_array.
  cbn [includes ret fst]. f_equal. apply bool_decide_eq_false.
  rewrite Exists_number_array, elem_of_remove_id. tauto.
Qed.

End store_more.

(** ** More on the list controller *)

Section list_more.
Import movieService MoviesList.
Context {Num : JsNumber}.
Variable DEFAULT_PAGE_SIZE : number.

(** What a step does, in a consistent state. *)
Lemma step_cases (s s' : State) (e : Event) :
  consistent s → step s e = Some s' →
  (asks e = true ∧ ∃ properties, s' = replace_filters properties s)
  ∨ (asks e = false ∧ ∃ request o, e = Settled request o ∧ settle request o s = Some s').
Proof.
  intros Hc. destruct e as [newFilters|page| |request o]; simpl.
  - destruct (render s); try done. intros [= <-]. left. split; [done|].
    eexists. apply handleFiltersChange_replace.
  - destruct (render s) as [| |[|] [|m shown] [|]]; try done. intros [= <-].
    left. split; [done|]. eexists. apply handlePageChange_replace.
  - destruct (render s); try done. intros [= <-]. left. split; [done|].
    eexists. apply onRetry_replace.
  - intros Hs. right. split; [done|]. by exists request, o.
Qed.

Lemma settle_spec (request : nat) (o : Settlement PaginatedResponse) (s s' : State) :
  settle request o s = Some s' →
  request ∈ pending s
  ∧ issued s' = issued s
  ∧ pending s' = filter (λ r, r ≠ request) (pending s)
  ∧ loading s' = false
  ∧ filters s' = filters s.
Proof.
  unfold settle. destruct (decide (request ∈ pending s)); [|done].
  intros [= <-]. by destruct o.
Qed.

(** Invariants are proved along the run, with consistency at hand. *)
Lemma run_invariant (P : State → Prop) :
  P (mount DEFAULT_PAGE_SIZE) →
  (∀ s s' e, consistent s → P s → step s e = Some s' → P s') →
  ∀ events s, run (mount DEFAULT_PAGE_SIZE) events = Some s → P s.
Proof.
  intros Hinit Hstep events.
  assert (∀ s0, consistent s0 → P s0 →
            ∀ s, run s0 events = Some s → P s) as Hgen.
  { induction events as [|e events IH]; intros s0 Hc0 Hp0 s; simpl.
    - by intros [= <-].
    - destruct (step s0 e) as [s1|] eqn:Hs; [|done].
      apply IH; [by eapply step_consistent|by eapply Hstep]. }
  intros s. apply Hgen; [apply mount_consistent|done].
Qed.

Lemma run_snoc (s0 s : State) (events : list Event) (e : Event) :
  run s0 (events ++ [e]) = Some s ↔ ∃ s1, run s0 events = Some s1 ∧ step s1 e = Some s.
Proof.
  revert s0. induction events as [|e0 events IH]; intros s0; simpl.
  - split.
    + destruct (step s0 e) as [s1|] eqn:Hs; [|done]. intros [= <-]. by exists s0.
    + intros (s2 & [= <-] & ->). done.
  - destruct (step s0 e0) as [s1|]; [apply IH|].
    split; [done|]. by intros (s2 & ? & _).
Qed.

Lemma tracked_step (s s' : State) (e : Event) :
  consistent s → tracked s → step s e = Some s' → tracked s'.
Proof.
  intros Hc (Hnd & Hlt & Hload) Hstep.
  destruct (step_cases s s' e Hc Hstep)
    as [[_ [properties ->]]|[_ (request & o & -> & Hsettle)]].
  - destruct Hc as [Hfresh _]. rewrite replace_filters_spec by done.
    unfold tracked, latest_request. cbn [pending issued loading].
    rewrite length_app. cbn [length]. split; [|split].
    + apply NoDup_app. split; [done|]. split; [|apply NoDup_singleton].
      intros r Hr Hr'. apply list_elem_of_singleton in Hr'. subst r.
      specialize (Hlt _ Hr). lia.
    + intros r [Hr| ->%list_elem_of_singleton]%elem_of_app; [|lia].
      specialize (Hlt _ Hr). lia.
    + intros _. apply elem_of_app. right.
      replace (pred (length (issued s) + 1)) with (length (issued s)) by lia.
      apply list_elem_of_here.
  - apply settle_spec in Hsettle as (Hin & Hi & Hp & Hl & _).
    unfold tracked. rewrite Hi, Hp, Hl. split; [by apply NoDup_filter|].
    split; [|done]. intros r [_ Hr]%list_elem_of_filter. by apply Hlt.
Qed.

Lemma mount_tracked : tracked (mount DEFAULT_PAGE_SIZE).
Proof.
  split; [apply NoDup_singleton|]. split.
  - intros r ->%list_elem_of_singleton. simpl. lia.
  - intros _. apply list_elem_of_here.
Qed.

(** X7.  One request per user action.  In a run from mounting, the number
    of requests issued is one (the mount) plus the number of filter
    changes, page changes and retries in the run; responses issue
    nothing. *)
Theorem one_request_per_action (events : list Event) (s : State) :
  run (mount DEFAULT_PAGE_SIZE) events = Some s →
  length (issued s) = 1 + length (filter (λ e, asks e = true) events).
Proof.
  revert s. induction events as [|e events IH] using rev_ind; intros s.
  - by intros [= <-].
  - intros (s1 & Hrun & Hstep)%run_snoc.
    pose proof (run_consistent _ _ _ Hrun (mount_consistent DEFAULT_PAGE_SIZE)) as Hc.
    rewrite filter_app, length_app, Nat.add_assoc, <- (IH s1 Hrun).
    destruct (step_cases s1 s e Hc Hstep)
      as [[Hask [properties ->]]|[Hask (request & o & -> & Hsettle)]].
    + destruct Hc as [Hfresh _]. rewrite replace_filters_spec by done.
      cbn [issued]. rewrite length_app, filter_cons, decide_True by done. done.
    + apply settle_spec in Hsettle as (_ & -> & _).
      rewrite filter_cons, decide_False by done. simpl. lia.
Qed.

(** X8.  The loading flag and the request for the current filters.  In
    every state of a run from mounting, while the list shows as loading
    the request issued last, the one for the current filters, is in
    flight.  The converse fails: when the response of a superseded request
    arrives while the request issued last is still in flight, the loading
    flag goes off and no spinner is rendered, although the request for the
    current filters has not settled. *)
Theorem superseded_response_clears_loading (events : list Event) (s : State) :
  run (mount DEFAULT_PAGE_SIZE) events = Some s →
  (loading s = true → latest_request s ∈ pending s)
  ∧ ∀ request o s',
      step s (Settled request o) = Some s' →
      request ≠ latest_request s → latest_request s ∈ pending s →
      loading s' = false
      ∧ latest_request s' ∈ pending s'
      ∧ props (filters s') = props (filters s)
      ∧ render s' ≠ LoadingSpinner
      ∧ ∀ shown pagination, render s' ≠ ListPage true shown pagination.
Proof.
  intros Hrun.
  assert (tracked s) as (_ & _ & Hload).
  { revert Hrun. apply (run_invariant tracked); [apply mount_tracked|].
    intros s0 s1 e Hc Hp Hs. by eapply tracked_step. }
  split; [done|]. intros request o s' Hstep Hne Hin. cbn [step] in *.
  apply settle_spec in Hstep as (_ & Hissued & Hp & Hl & Hf).
  split; [done|]. split.
  { unfold latest_request in *. rewrite Hissued, Hp, list_elem_of_filter.
    split; [congruence|done]. }
  split; [by rewrite Hf|].
  unfold render. rewrite Hl. cbn [andb].
  destruct (error s') as [text|]; [destruct (decide (text = ""))|]; by split.
Qed.

Lemma error_is_message_step (s s' : State) (e : Event) :
  consistent s → error_is_message s → step s e = Some s' → error_is_message s'.
Proof.
  intros Hc He Hstep.
  destruct (step_cases s s' e Hc Hstep)
    as [[_ [properties ->]]|[_ (request & o & -> & Hsettle)]].
  - destruct Hc as [Hfresh _]. rewrite replace_filters_spec by done. by intros text.
  - unfold settle in Hsettle. destruct (decide (request ∈ pending s)); [|done].
    injection Hsettle as <-. destruct o as [response|err]; [exact He|].
    intros text [= <-]. by apply message_or_nonempty.
Qed.

(** X9.  A late success does not clear the error.  In a run from mounting,
    if an error is on record and a request still in flight is then
    fulfilled, its data replaces the movies, but the error stays on record
    and it is the error message that is rendered, not the list. *)
Theorem error_outlives_late_success
    (events : list Event) (s : State) (request : nat) (text : string)
    (response : PaginatedResponse) :
  run (mount DEFAULT_PAGE_SIZE) events = Some s →
  error s = Some text → request ∈ pending s →
  ∃ s', step s (Settled request (Fulfilled response)) = Some s'
        ∧ movies s' = default [] (data response)
        ∧ error s' = Some text
        ∧ render s' = ErrorMessage text.
Proof.
  intros Hrun Herr Hin.
  assert (error_is_message s) as Hmsg.
  { revert Hrun. apply (run_invariant error_is_message); [by intros text'|].
    intros s0 s1 e Hc Hp Hs. by eapply error_is_message_step. }
  cbn [step]. unfold settle. rewrite decide_True by done.
  eexists. split; [done|]. split; [done|]. split; [done|].
  unfold render, fetchMovies_resume.
  cbn [loading setLoading setTotalPages setMovies error andb].
  rewrite Herr. by rewrite decide_False by (by apply Hmsg).
Qed.

End list_more.

(** ** The filter panel and the queries it causes *)

Section panel_facts.
Import movieService MoviesList MovieFiltersPanel.
Context {Num : JsNumber}.
Variable parseInt : string → number.
Variable DEFAULT_PAGE_SIZE : number.

Lemma keys_with_property (filters : MovieFilters Num) (key : string) (value : JsValue Num) :
  keys (with_property filters key value)
  = if decide (key ∈ keys filters) then keys filters else keys filters ++ [key].
Proof.
  unfold keys. induction filters as [|[k v] filters IH]; [done|].
  cbn [with_property]. destruct (decide (k = key)) as [->|Hne].
  - rewrite decide_True by (rewrite fmap_cons; left). done.
  - rewrite !fmap_cons, IH. cbn [fst].
    destruct (decide (key ∈ filters.*1)) as [Hin|Hout].
    + rewrite decide_True by (by right). done.
    + rewrite decide_False; [done|].
      intros [?|?]%elem_of_cons; [congruence|done].
Qed.

Lemma NoDup_with_property (filters : MovieFilters Num) (key : string) (value : JsValue Num) :
  NoDup (keys filters) → NoDup (keys (with_property filters key value)).
Proof.
  intros Hnd. rewrite keys_with_property. case_decide; [done|].
  apply NoDup_app. split; [done|]. split; [|apply NoDup_singleton].
  intros k Hk ->%list_elem_of_singleton. done.
Qed.

Lemma property_with_property (filters : MovieFilters Num) (key key' : string)
    (value : JsValue Num) :
  property (with_property filters key value) key'
  = if decide (key = key') then value else property filters key'.
Proof.
  induction filters as [|[k v] filters IH]; cbn [with_property property].
  - by destruct (decide (key = key')).
  - destruct (decide (k = key)) as [->|Hne]; cbn [property].
    + by destruct (decide (key = key')).
    + rewrite IH. destruct (decide (k = key')) as [->|]; [|done].
      by rewrite decide_False by congruence.
Qed.

Lemma getMovies_params_cons (key : string) (value : JsValue Num)
    (filters : MovieFilters Num) :
  getMovies_params (Some (((key, value) :: filters) : MovieFilters Num))
  = param_of key value ++ getMovies_params (Some filters).
Proof.
  rewrite (getMovies_params_omap ((key, value) :: filters)),
    (getMovies_params_omap filters).
  unfold param_of. simpl.
  destruct (not_undefined value && not_null value && not_empty_string value) eqn:Hg.
  - apply guard_true_iff in Hg. by rewrite decide_True.
  - apply guard_false_iff in Hg. by rewrite decide_False.
Qed.

Lemma params_named_cons (name key : string) (value : JsValue Num)
    (filters : MovieFilters Num) :
  params_named name ((key, value) :: filters)
  = (if decide (key = name) then param_of key value else [])
    ++ params_named name filters.
Proof.
  unfold params_named. rewrite getMovies_params_cons, filter_app. f_equal.
  unfold param_of. destruct (decide (kept value)).
  - rewrite filter_cons. cbn [fst]. by destruct (decide (key = name)).
  - by destruct (decide (key = name)).
Qed.

Lemma params_named_absent (filters : MovieFilters Num) (key : string) :
  key ∉ keys filters → params_named key filters = [].
Proof.
  unfold keys. induction filters as [|[k v] filters IH]; [done|].
  rewrite fmap_cons, not_elem_of_cons. cbn [fst]. intros [Hne Hout].
  rewrite params_named_cons, decide_False by congruence. by apply IH.
Qed.

(** For an object without repeated properties, the parameters of a given
    name are what the serialiser makes of that property's value. *)
Lemma params_named_property (filters : MovieFilters Num) (key : string) :
  NoDup (keys filters) → params_named key filters = param_of key (property filters key).
Proof.
  unfold keys. induction filters as [|[k v] filters IH]; intros Hnd.
  - unfold param_of. rewrite decide_False; [done|]. unfold kept. tauto.
  - rewrite fmap_cons in Hnd. apply NoDup_cons in Hnd as [Hk Hnd]. cbn [fst] in Hk.
    rewrite params_named_cons. cbn [property].
    destruct (decide (k = key)) as [->|Hne].
    + rewrite (params_named_absent filters key Hk). by rewrite app_nil_r.
    + by apply IH.
Qed.

(** An edit of one property followed by the reset of the page. *)
Lemma edit_params (filters : MovieFilters Num) (key : string) (value : JsValue Num)
    (name : string) :
  NoDup (keys filters) → key ≠ "page" →
  params_named name
    (with_property (with_property filters key value) "page" (VNumber number_one))
  = if decide (name = "page") then [("page", Number_toString number_one)]
    else if decide (name = key) then param_of key value
    else params_named name filters.
Proof.
  intros Hnd Hkey.
  rewrite params_named_property by (by do 2 apply NoDup_with_property).
  rewrite !property_with_property.
  destruct (decide (name = "page")) as [->|Hpage].
  - rewrite decide_True by done. unfold param_of.
    rewrite decide_True; [done|]. by repeat split.
  - rewrite decide_False by done.
    destruct (decide (name = key)) as [->|Hname].
    + by rewrite decide_True.
    + rewrite decide_False by done. by rewrite params_named_property.
Qed.

Lemma edit_sets_parameter (filters : MovieFilters Num) (key : string)
    (value : JsValue Num) :
  NoDup (keys filters) → key ≠ "page" →
  sets_parameter key (param_of key value) filters
    (with_property (with_property filters key value) "page" (VNumber number_one)).
Proof.
  intros Hnd Hkey. split; [|split].
  - rewrite edit_params by done. rewrite decide_False by done. by rewrite decide_True.
  - rewrite edit_params by done. by rewrite decide_True.
  - intros name Hpage Hname. rewrite edit_params by done.
    by rewrite !decide_False by done.
Qed.

Lemma param_of_string (key value : string) :
  param_of key (VString value : JsValue Num)
  = if decide (value = "") then [] else [(key, value)].
Proof.
  unfold param_of. destruct (decide (value = "")) as [->|Hne].
  - rewrite decide_False; [done|]. unfold kept. tauto.
  - rewrite decide_True; [done|]. repeat split; try done. by intros [= ?].
Qed.

Lemma param_of_number (key : string) (n : number) :
  param_of key (VNumber n) = [(key, Number_toString n)].
Proof. unfold param_of. rewrite decide_True; [done|]. by repeat split. Qed.

(** X10.  What a choice in the panel does to the query.  For a filters
    object without repeated properties, each of choosing a genre, a
    director or an actor, submitting a search and typing a year puts
    exactly that one parameter in the query, and none at all when the
    value is the empty string (the entry for all, an emptied field);
    with each of them the query goes back to page 1 and every other
    parameter is as before.  Committing a rating range puts its two
    bounds in the query, goes back to page 1 and leaves the rest. *)
Theorem panel_choice_in_query
    (filters : MovieFilters Num) (value : string) (ratingRange : number * number) :
  NoDup (keys filters) →
  sets_parameter "genre" (if decide (value = "") then [] else [("genre", value)])
    filters (handleGenreChange filters value)
  ∧ sets_parameter "director"
      (if decide (value = "") then [] else [("director", value)])
      filters (handleDirectorChange filters value)
  ∧ sets_parameter "actor" (if decide (value = "") then [] else [("actor", value)])
      filters (handleActorChange filters value)
  ∧ sets_parameter "search" (if decide (value = "") then [] else [("search", value)])
      filters (handleSearchSubmit filters value)
  ∧ sets_parameter "year"
      (if decide (value = "") then []
       else [("year", Number_toString (parseInt value))])
      filters (handleYearChange parseInt filters value)
  ∧ (params_named "min_rating" (handleRatingCommitted filters ratingRange)
       = [("min_rating", Number_toString ratingRange.1)]
     ∧ params_named "max_rating" (handleRatingCommitted filters ratingRange)
       = [("max_rating", Number_toString ratingRange.2)]
     ∧ params_named "page" (handleRatingCommitted filters ratingRange)
       = [("page", Number_toString number_one)]
     ∧ ∀ name, name ≠ "page" → name ≠ "min_rating" → name ≠ "max_rating" →
         params_named name (handleRatingCommitted filters ratingRange)
         = params_named name filters).
Proof.
  intros Hnd.
  split; [rewrite <- param_of_string; by apply edit_sets_parameter|].
  split; [rewrite <- param_of_string; by apply edit_sets_parameter|].
  split; [rewrite <- param_of_string; by apply edit_sets_parameter|].
  split; [rewrite <- param_of_string; by apply edit_sets_parameter|].
  split.
  { unfold handleYearChange. destruct (decide (value = "")).
    - replace (@nil (string * string)) with (param_of "year" (@VUndefined Num)).
      + by apply edit_sets_parameter.
      + unfold param_of. rewrite decide_False; [done|]. unfold kept. tauto.
    - rewrite <- param_of_number. by apply edit_sets_parameter. }
  unfold handleRatingCommitted.
  assert (NoDup (keys (with_property filters "min_rating" (VNumber ratingRange.1))))
    as Hnd' by (by apply NoDup_with_property).
  destruct (edit_sets_parameter _ "max_rating" (VNumber ratingRange.2) Hnd')
    as (Hmax & Hpage & Hothers); [done|].
  split; [|split; [|split]].
  - rewrite Hothers by done.
    rewrite params_named_property by done.
    rewrite property_with_property, decide_True by done. apply param_of_number.
  - rewrite Hmax. apply param_of_number.
  - exact Hpage.
  - intros name Hp Hmin Hmx. rewrite Hothers by done.
    rewrite !params_named_property by done.
    by rewrite property_with_property, decide_False by done.
Qed.

Lemma paged_edit (filters : MovieFilters Num) (key : string) (value : JsValue Num) :
  key ≠ "page" → key ≠ "page_size" →
  paged DEFAULT_PAGE_SIZE filters →
  paged DEFAULT_PAGE_SIZE
    (with_property (with_property filters key value) "page" (VNumber number_one)).
Proof.
  intros Hp Hs (Hnd & Hsize & _). split; [by do 2 apply NoDup_with_property|].
  rewrite !property_with_property. split.
  - by rewrite !decide_False by done.
  - exists number_one. by rewrite decide_True.
Qed.

Lemma paged_event (s : State) (a : Action) :
  paged DEFAULT_PAGE_SIZE (props (filters s)) →
  match event_of parseInt s a with
  | FiltersChanged newFilters => paged DEFAULT_PAGE_SIZE newFilters
  | _ => True
  end.
Proof.
  intros Hpaged. destruct a; cbn [event_of]; try done.
  - by apply paged_edit.
  - by apply paged_edit.
  - by apply paged_edit.
  - by apply paged_edit.
  - by apply paged_edit.
  - unfold handleRatingCommitted. destruct Hpaged as (Hnd & Hsize & _).
    split; [by do 3 apply NoDup_with_property|].
    rewrite !property_with_property. split.
    + by rewrite !decide_False by done.
    + exists number_one. by rewrite decide_True.
  - destruct Hpaged as (Hnd & Hsize & _). unfold handleClearFilters. split.
    + unfold keys. cbn. apply NoDup_cons. split; [|apply NoDup_singleton].
      intros H%list_elem_of_singleton. discriminate H.
    + cbn [property]. rewrite decide_False by done. rewrite !decide_True by done.
      split; [done|]. by exists number_one.
Qed.

Lemma settled_page_replace (asked : MovieFilters Num) (s : State) :
  settled_page DEFAULT_PAGE_SIZE s → paged DEFAULT_PAGE_SIZE asked →
  settled_page DEFAULT_PAGE_SIZE (replace_filters asked s).
Proof.
  intros (Hc & Hp & Hall) Hasked.
  split; [by apply replace_filters_consistent|].
  destruct Hc as [Hfresh _]. rewrite replace_filters_spec by done.
  cbn [props filters issued]. split; [done|].
  apply Forall_app. split; [done|]. apply Forall_singleton. by exists asked.
Qed.

Lemma settled_page_step (s s' : State) (a : Action) :
  settled_page DEFAULT_PAGE_SIZE s → step s (event_of parseInt s a) = Some s' → settled_page DEFAULT_PAGE_SIZE s'.
Proof.
  intros Hs Hstep. pose proof Hs as (Hc & Hp & Hall).
  pose proof (paged_event s a Hp) as Hev.
  destruct (event_of parseInt s a) as [newFilters|page| |request o]; cbn [step] in Hstep.
  - destruct (render s); try done. injection Hstep as <-.
    rewrite handleFiltersChange_replace. by apply settled_page_replace.
  - destruct (render s) as [| |[|] [|m shown] [|]]; try done. injection Hstep as <-.
    rewrite handlePageChange_replace. apply settled_page_replace; [done|].
    destruct Hp as (Hnd & Hsize & _). split; [by apply NoDup_with_property|].
    rewrite !property_with_property. split.
    + by rewrite decide_False.
    + exists page. by rewrite decide_True.
  - destruct (render s); try done. injection Hstep as <-.
    rewrite onRetry_replace. by apply settled_page_replace.
  - pose proof (settle_consistent _ _ _ _ Hstep Hc) as Hc'.
    apply settle_spec in Hstep as (_ & Hi & _ & _ & Hf).
    split; [done|]. by rewrite Hf, Hi.
Qed.

Lemma settled_page_mount : settled_page DEFAULT_PAGE_SIZE (mount DEFAULT_PAGE_SIZE).
Proof.
  assert (paged DEFAULT_PAGE_SIZE
            [("page", VNumber number_one); ("page_size", VNumber DEFAULT_PAGE_SIZE)])
    as Hp.
  { split.
    - unfold keys. cbn. apply NoDup_cons. split; [|apply NoDup_singleton].
      intros H%list_elem_of_singleton. discriminate H.
    - cbn [property]. rewrite decide_False by done. rewrite !decide_True by done.
      split; [done|]. by exists number_one. }
  split; [apply mount_consistent|]. split; [exact Hp|].
  apply Forall_singleton. eexists. split; [exact Hp|done].
Qed.

Lemma settled_page_interact (actions : list Action) (s0 s : State) :
  settled_page DEFAULT_PAGE_SIZE s0 → interact parseInt s0 actions = Some s → settled_page DEFAULT_PAGE_SIZE s.
Proof.
  revert s0. induction actions as [|a actions IH]; intros s0 Hs0; simpl.
  - by intros [= <-].
  - destruct (step s0 (event_of parseInt s0 a)) as [s1|] eqn:Hstep; [|done].
    apply IH. by eapply settled_page_step.
Qed.

(** X11.  The page size never changes.  Whatever the user does on the
    movies page (search, choices, year, ratings, clearing, paging,
    retrying) and whichever responses arrive, every request ever issued
    asks for a filters object without repeated properties whose query has
    exactly one [page_size] parameter, the configured default, and exactly
    one [page] parameter. *)
Theorem every_query_is_paged (actions : list Action) (s : State) :
  interact parseInt (mount DEFAULT_PAGE_SIZE) actions = Some s →
  Forall (λ url,
            ∃ asked page,
              url = getMovies_url (Some asked)
              ∧ NoDup (keys asked)
              ∧ params_named "page_size" asked
                = [("page_size", Number_toString DEFAULT_PAGE_SIZE)]
              ∧ params_named "page" asked = [("page", Number_toString page)])
         (issued s).
Proof.
  intros Hrun.
  destruct (settled_page_interact actions _ s settled_page_mount Hrun) as (_ & _ & Hall).
  eapply Forall_impl; [exact Hall|]. cbn beta.
  intros url (asked & (Hnd & Hsize & page & Hpage) & ->).
  exists asked, page. split; [done|]. split; [done|].
  rewrite !params_named_property, Hsize, Hpage by done.
  unfold param_of. rewrite !decide_True; [done| |]; by repeat split.
Qed.

End panel_facts.

(** ** The formatters *)

Section formatter_facts.
Import formatters.

Lemma digits_uint (d : Decimal.uint) : digits (NilEmpty.string_of_uint d).
Proof. induction d; simpl; repeat split; done. Qed.

Lemma digits_Z_toString (z : Z) : (0 ≤ z)%Z → digits (Z_toString z).
Proof.
  intros Hz. unfold Z_toString, NilZero.string_of_int, NilZero.string_of_uint.
  destruct z as [|p|p]; [simpl; by repeat split| |lia].
  simpl. destruct (Pos.to_uint p); try apply digits_uint. simpl. by repeat split.
Qed.

Lemma Z_toString_inj (a b : Z) : Z_toString a = Z_toString b → a = b.
Proof.
  intros H. pose proof (reference_facts.parse_integer_Z_toString a) as Ha.
  rewrite H, reference_facts.parse_integer_Z_toString in Ha. by injection Ha.
Qed.

Lemma Z_toString_not_empty (z : Z) : Z_toString z ≠ "".
Proof.
  destruct (reference_facts.Z_toString_nonempty z) as (c & rest & -> & _). done.
Qed.

(** A run of digits followed by something that is no digit splits in one
    way only. *)
Lemma digits_then_other (d1 d2 t1 t2 : string) :
  digits d1 → digits d2 → no_digit_first t1 → no_digit_first t2 →
  d1 +:+ t1 = d2 +:+ t2 → d1 = d2 ∧ t1 = t2.
Proof.
  revert d2. induction d1 as [|c1 d1 IH]; intros [|c2 d2] H1 H2 Ht1 Ht2 Heq.
  - done.
  - change ("" +:+ t1) with t1 in Heq. subst t1.
    rewrite reference_facts.append_cons in Ht1. simpl in Ht1, H2. tauto.
  - change ("" +:+ t2) with t2 in Heq. subst t2.
    rewrite reference_facts.append_cons in Ht2. simpl in Ht2, H1. tauto.
  - rewrite !reference_facts.append_cons in Heq. injection Heq as -> Heq.
    destruct H1 as [_ H1], H2 as [_ H2].
    destruct (IH d2 H1 H2 Ht1 Ht2 Heq) as [-> ->]. done.
Qed.

Lemma formatDuration_positive (minutes : Z) :
  (0 < minutes)%Z →
  formatDuration minutes = duration_text (minutes / 60) (minutes `mod` 60).
Proof.
  intros Hm. unfold formatDuration, duration_text.
  rewrite bool_decide_false by lia. rewrite bool_decide_false by lia. done.
Qed.

Lemma duration_text_shape (hours mins : Z) :
  (0 ≤ hours)%Z → (0 ≤ mins)%Z →
  ∃ d t, duration_text hours mins = d +:+ t ∧ digits d ∧ d ≠ "" ∧ no_digit_first t
         ∧ t ≠ "N/A".
Proof.
  intros Hh Hm. unfold duration_text.
  destruct (decide (hours = 0%Z)); [|destruct (decide (mins = 0%Z))].
  - exists (Z_toString mins), "m". repeat split; try done.
    + by apply digits_Z_toString.
    + apply Z_toString_not_empty.
  - exists (Z_toString hours), "h". repeat split; try done.
    + by apply digits_Z_toString.
    + apply Z_toString_not_empty.
  - exists (Z_toString hours), ("h " +:+ Z_toString mins +:+ "m").
    repeat split; try done.
    + by apply digits_Z_toString.
    + apply Z_toString_not_empty.
Qed.

Lemma duration_text_inj (h r h' r' : Z) :
  (0 ≤ h)%Z → (0 ≤ r)%Z → (0 ≤ h')%Z → (0 ≤ r')%Z →
  duration_text h r = duration_text h' r' → h = h' ∧ r = r'.
Proof.
  intros Hh Hr Hh' Hr'. unfold duration_text.
  pose proof (digits_Z_toString h Hh) as Dh. pose proof (digits_Z_toString r Hr) as Dr.
  pose proof (digits_Z_toString h' Hh') as Dh'.
  pose proof (digits_Z_toString r' Hr') as Dr'.
  destruct (decide (h = 0%Z)) as [->|Hh0], (decide (h' = 0%Z)) as [->|Hh0'];
    [|destruct (decide (r' = 0%Z)) as [->|Hr0']
     |destruct (decide (r = 0%Z)) as [->|Hr0]
     |destruct (decide (r = 0%Z)) as [->|Hr0], (decide (r' = 0%Z)) as [->|Hr0']];
    intros Heq.
  - apply digits_then_other in Heq as [Heq _]; try done.
    by apply Z_toString_inj in Heq as ->.
  - apply digits_then_other in Heq as [_ Heq]; done.
  - apply digits_then_other in Heq as [_ Heq]; done.
  - apply digits_then_other in Heq as [_ Heq]; done.
  - apply digits_then_other in Heq as [_ Heq]; done.
  - apply digits_then_other in Heq as [Heq _]; try done.
    by apply Z_toString_inj in Heq as ->.
  - apply digits_then_other in Heq as [_ Heq]; done.
  - apply digits_then_other in Heq as [_ Heq]; done.
  - apply digits_then_other in Heq as [Heq1 Heq2]; try done.
    apply Z_toString_inj in Heq1 as ->.
    rewrite !reference_facts.append_cons in Heq2. injection Heq2 as Heq2.
    change ("" +:+ Z_toString r +:+ "m" = "" +:+ Z_toString r' +:+ "m")
      with (Z_toString r +:+ "m" = Z_toString r' +:+ "m") in Heq2.
    apply digits_then_other in Heq2 as [Heq2 _]; try done.
    by apply Z_toString_inj in Heq2 as ->.
Qed.

(** X14.  [formatDuration] on whole minutes that a JS number holds exactly:
    it answers ["N/A"] exactly for zero and negative durations, and two
    different positive durations never get the same text. *)
Theorem formatDuration_tells_durations_apart (minutes minutes' : Z) :
  safe_integer minutes → safe_integer minutes' →
  (formatDuration minutes = "N/A" ↔ (minutes ≤ 0)%Z)
  ∧ ((0 < minutes)%Z → (0 < minutes')%Z →
     formatDuration minutes = formatDuration minutes' → minutes = minutes').
Proof.
  intros _ _. split.
  - split.
    + intros Hna. destruct (decide (minutes ≤ 0)%Z) as [|Hpos]; [done|].
      rewrite formatDuration_positive in Hna by lia.
      destruct (duration_text_shape (minutes / 60) (minutes `mod` 60))
        as (d & t & Heq & Hd & Hne & Ht & Htna).
      { apply Z.div_pos; lia. }
      { apply Z.mod_pos_bound; lia. }
      rewrite Heq in Hna.
      change (d +:+ t = "" +:+ "N/A") in Hna.
      apply digits_then_other in Hna as [Hd' _]; done.
    + intros Hle. unfold formatDuration.
      destruct (decide (minutes = 0%Z)) as [->|]; [done|].
      rewrite bool_decide_false by done. by rewrite bool_decide_true by lia.
  - intros Hm Hm' Heq. rewrite !formatDuration_positive in Heq by done.
    apply duration_text_inj in Heq as [Hq Hr].
    + rewrite (Z.div_mod minutes 60), (Z.div_mod minutes' 60) by lia. by rewrite Hq, Hr.
    + apply Z.div_pos; lia.
    + apply Z.mod_pos_bound; lia.
    + apply Z.div_pos; lia.
    + apply Z.mod_pos_bound; lia.
Qed.

Lemma truncateText_long (text : JsString) (maxLength : Z) :
  (maxLength < Z.of_nat (length text))%Z → text ≠ [] →
  truncateText text maxLength = take (Z.to_nat maxLength) text ++ ellipsis
  ∧ length (take (Z.to_nat maxLength) text) = Z.to_nat maxLength.
Proof.
  intros Hlong Hne. unfold truncateText. rewrite decide_False by done.
  rewrite bool_decide_false by lia. split; [done|]. apply length_take_le. lia.
Qed.

(** X15.  [truncateText] on strings as sequences of UTF-16 code units,
    with a whole-number bound.  A text that fits the bound, and the empty
    text under any bound, is returned as it is.  A longer one is cut to
    its prefix of the bound's length (the empty prefix for a negative
    bound) followed by three dots: the result is three units longer than
    the bound, so it does not fit the bound itself, and it is longer than
    the text when the text exceeds the bound by less than three.
    Truncating a result again with the same bound changes nothing. *)
Theorem truncateText_bounds (text : JsString) (maxLength : Z) :
  ((Z.of_nat (length text) ≤ maxLength)%Z ∨ text = [] →
   truncateText text maxLength = text)
  ∧ ((maxLength < Z.of_nat (length text))%Z → text ≠ [] →
     truncateText text maxLength = take (Z.to_nat maxLength) text ++ ellipsis
     ∧ take (Z.to_nat maxLength) text `prefix_of` text
     ∧ length (truncateText text maxLength) = Z.to_nat maxLength + 3
     ∧ (maxLength < Z.of_nat (length (truncateText text maxLength)))%Z
     ∧ (length text < Z.to_nat maxLength + 3 →
        length text < length (truncateText text maxLength)))
  ∧ truncateText (truncateText text maxLength) maxLength = truncateText text maxLength.
Proof.
  assert ((Z.of_nat (length text) ≤ maxLength)%Z ∨ text = [] →
          truncateText text maxLength = text) as Hfits.
  { unfold truncateText. intros Hfit. destruct (decide (text = [])) as [->|Hne]; [done|].
    destruct Hfit as [Hfit|Hempty]; [|done]. by rewrite bool_decide_true. }
  assert ((maxLength < Z.of_nat (length text))%Z → text ≠ [] →
          length (truncateText text maxLength) = Z.to_nat maxLength + 3) as Hlength.
  { intros Hlong Hne. destruct (truncateText_long text maxLength Hlong Hne) as [-> Hlen].
    rewrite length_app, Hlen. done. }
  split; [exact Hfits|]. split.
  - intros Hlong Hne. destruct (truncateText_long text maxLength Hlong Hne) as [Heq Hlen].
    split; [done|]. split; [apply prefix_take|].
    rewrite (Hlength Hlong Hne). split; [done|]. split; lia.
  - destruct (decide (text = [])) as [->|Hne]; [done|].
    destruct (decide (Z.of_nat (length text) ≤ maxLength)%Z) as [Hfit|Hlong].
    + rewrite (Hfits (or_introl Hfit)). apply Hfits. by left.
    + assert (maxLength < Z.of_nat (length text))%Z as Hlong' by lia.
      destruct (truncateText_long text maxLength Hlong' Hne) as [Heq Hlen].
      rewrite Heq.
      destruct (truncateText_long (take (Z.to_nat maxLength) text ++ ellipsis) maxLength)
        as [Heq' _].
      * rewrite length_app, Hlen. cbn [length ellipsis]. lia.
      * by destruct (take (Z.to_nat maxLength) text).
      * rewrite Heq'. by rewrite take_app_length'.
Qed.

End formatter_facts.

(** ** The detail page *)

Section detail_facts.
Import movieService.
Variable parseInt : string → option Z.

(** X12.  The same response, two pages.  For one movie id and one
    fulfilled response to [GET /movies/id], the favourites page and the
    detail page issue the same request, but they do not agree on the
    shape of the response.  A plain movie is shown by both.  An envelope
    carrying a movie is unwrapped by the favourites page, which shows the
    movie; the detail page stores the envelope as it came, and its render
    throws. *)
Theorem envelope_is_unwrapped_on_one_page_only
    (id : Z) (text : string) (instant : nat) (response : ApiObject) :
  text ≠ "" → parseInt text = Some id →
  let favourites :=
    Favorites.fetchFavoriteMovies [id] [(instant, Fulfilled response)] Favorites.initial in
  let detail :=
    MovieDetail.fetchMovie parseInt (Some text) (Fulfilled response) MovieDetail.initial in
  Favorites.issued favourites = MovieDetail.issued detail
  ∧ MovieDetail.movie detail = Some response
  ∧ (∀ movie, response = Plain movie →
       Favorites.render favourites = Favorites.Grid [Plain movie]
       ∧ MovieDetail.render detail = MovieDetail.Details movie)
  ∧ (∀ success movie, response = Envelope success (Some movie) →
       Favorites.render favourites = Favorites.Grid [Plain movie]
       ∧ MovieDetail.render detail = MovieDetail.RenderThrows)
  ∧ (∀ success, response = Envelope success None →
       MovieDetail.render detail = MovieDetail.RenderThrows).
Proof.
  intros Hne Hid favourites detail. subst favourites detail.
  unfold MovieDetail.fetchMovie. rewrite decide_False by done. rewrite Hid.
  split; [done|]. split; [done|]. split; [|split].
  - by intros movie ->.
  - by intros success movie ->.
  - by intros success ->.
Qed.

(** X13.  What the detail page ends up showing.  Without an id in the
    route, or with an empty one, the effect changes nothing and issues no
    request: a page just mounted keeps its spinner.  With an id, whatever
    the page held before, exactly one request goes out and the spinner is
    gone once it settles: a request fulfilled with a movie shows it and no
    error, one fulfilled with an envelope makes the render throw, a
    rejected one shows its message (or the fallback), also when a movie
    from an earlier run is still in memory. *)
Theorem detail_page_outcomes
    (text : string) (o : Settlement ApiObject) (s : MovieDetail.State) :
  MovieDetail.fetchMovie parseInt None o s = s
  ∧ MovieDetail.fetchMovie parseInt (Some "") o s = s
  ∧ MovieDetail.render (MovieDetail.fetchMovie parseInt None o MovieDetail.initial)
    = MovieDetail.LoadingSpinner
  ∧ (text ≠ "" →
     let s' := MovieDetail.fetchMovie parseInt (Some text) o s in
     MovieDetail.issued s'
       = MovieDetail.issued s ++ [MovieDetail.getMovieById_parsed (parseInt text)]
     ∧ MovieDetail.render s'
       = match o with
         | Fulfilled (Plain movie) => MovieDetail.Details movie
         | Fulfilled (Envelope _ _) => MovieDetail.RenderThrows
         | Rejected err =>
             MovieDetail.ErrorMessage (message_or err "Failed to load movie details")
         end).
Proof.
  split; [done|]. split; [done|]. split; [done|].
  intros Hne. unfold MovieDetail.fetchMovie. rewrite decide_False by done.
  destruct o as [[movie|success payload]|err]; [done|done|]. split; [done|].
  unfold MovieDetail.render, MovieDetail.error_or_not_found.
  cbn [MovieDetail.loading MovieDetail.setLoading MovieDetail.setError
       MovieDetail.error MovieDetail.movie].
  pose proof (message_or_nonempty err "Failed to load movie details") as Hmsg.
  destruct (MovieDetail.movie s);
    by rewrite ?decide_False by (by apply Hmsg).
Qed.

End detail_facts.

(** ** How the operations on favourites compose *)

Section compose_facts.
Context {R : Runtime}.

Lemma remove_remove_comm (a b : Z) (ids : list Z) :
  remove_id a (remove_id b ids) = remove_id b (remove_id a ids).
Proof.
  unfold remove_id. rewrite !list_filter_filter. apply list_filter_iff.
  intros x. tauto.
Qed.

Lemma add_add_perm (a b : Z) (ids : list Z) :
  add_id a (add_id b ids) ≡ₚ add_id b (add_id a ids).
Proof.
  assert (∀ x y : Z, x ∈ ids → x ∈ ids ++ [y]) as Hleft
    by (intros; apply elem_of_app; by left).
  assert (∀ x y : Z, x ∉ ids → x ≠ y → x ∉ ids ++ [y]) as Hright
    by (intros x y ? ? [?|?%list_elem_of_singleton]%elem_of_app; done).
  assert (b ∈ ids ∨ b ∉ ids) as [Hb|Hb] by (destruct (decide (b ∈ ids)); auto).
  all: assert (a ∈ ids ∨ a ∉ ids) as [Ha|Ha] by (destruct (decide (a ∈ ids)); auto).
  all: unfold add_id.
  all: rewrite ?(decide_True (P := a ∈ ids)), ?(decide_True (P := b ∈ ids)) by done.
  all: rewrite ?(decide_False (P := a ∈ ids)), ?(decide_False (P := b ∈ ids)) by done.
  - by rewrite ?(decide_True (P := a ∈ ids)), ?(decide_True (P := b ∈ ids)) by done.
  - rewrite ?(decide_True (P := b ∈ ids)) by done.
    by rewrite ?(decide_True (P := b ∈ ids ++ [a])) by auto.
  - rewrite ?(decide_True (P := a ∈ ids)) by done.
    by rewrite ?(decide_True (P := a ∈ ids ++ [b])) by auto.
  - destruct (decide (a = b)) as [->|Hne]; [done|].
    rewrite (decide_False (P := a ∈ ids ++ [b])) by auto.
    rewrite (decide_False (P := b ∈ ids ++ [a])) by auto.
    rewrite <- !app_assoc. apply Permutation_app_head. simpl. apply perm_swap.
Qed.

(** X16.  Composition of the hook's operations on a component in step with
    its store (storage calls succeeding).  Adding an id that was not there
    and removing it again restores the list exactly.  Removals of two ids
    give the same list in either order.  Additions of two ids give the
    same ids in either order, as a permutation: the two new ids end up in
    the order they were added. *)
Theorem favorites_operations_compose
    (a b : Z) (c : useFavorites.Component) (ids : list Z) :
  in_sync c ids →
  (a ∉ ids → in_sync (perform_all [Add a; Remove a] c) ids)
  ∧ (∃ removed,
       in_sync (perform_all [Remove a; Remove b] c) removed
       ∧ in_sync (perform_all [Remove b; Remove a] c) removed)
  ∧ (∃ first second,
       in_sync (perform_all [Add a; Add b] c) first
       ∧ in_sync (perform_all [Add b; Add a] c) second
       ∧ first ≡ₚ second
       ∧ (a ∉ ids → b ∉ ids → a ≠ b →
          first = ids ++ [a; b] ∧ second = ids ++ [b; a])).
Proof.
  intros Hc.
  pose proof (perform_all_reliable [Add a; Remove a] c ids Hc) as Har.
  pose proof (perform_all_reliable [Remove a; Remove b] c ids Hc) as Hab.
  pose proof (perform_all_reliable [Remove b; Remove a] c ids Hc) as Hba.
  pose proof (perform_all_reliable [Add a; Add b] c ids Hc) as Gab.
  pose proof (perform_all_reliable [Add b; Add a] c ids Hc) as Gba.
  cbn [foldl apply_op] in *.
  split; [|split].
  - intros Hout. by rewrite (remove_add_fresh a ids Hout) in Har.
  - exists (remove_id b (remove_id a ids)). split; [done|].
    by rewrite remove_remove_comm.
  - exists (add_id b (add_id a ids)), (add_id a (add_id b ids)).
    split; [done|]. split; [done|].
    split; [apply add_add_perm|].
    intros Ha Hb Hne.
    assert (∀ x y : Z, x ∉ ids → x ≠ y → x ∉ ids ++ [y]) as Hright
      by (intros x y ? ? [?|?%list_elem_of_singleton]%elem_of_app; done).
    unfold add_id.
    rewrite (decide_False (P := a ∈ ids)), (decide_False (P := b ∈ ids)) by done.
    rewrite (decide_False (P := b ∈ ids ++ [a])) by auto.
    rewrite (decide_False (P := a ∈ ids ++ [b])) by auto.
    by rewrite <- !app_assoc.
Qed.

(** X17.  Clear All on the favourites page.  Declined, it changes nothing.
    Confirmed while the grid is on display, it issues no request and
    leaves the hook with the empty array and the page with the empty
    state.  If the storage accepts the removal the store then loads as
    empty.  If the storage refuses it, the stored text is untouched: the
    favourites the page no longer shows are back after the next mount. *)
Theorem clear_all_outcomes
    (c : useFavorites.Component) (s : Favorites.State) (shown : list ApiObject) :
  Favorites.render s = Favorites.Grid shown →
  FavoritesWithHook.handleClearAll false c s = (c, s)
  ∧ useFavorites.favorites (FavoritesWithHook.handleClearAll true c s).1 = JArray []
  ∧ Favorites.render (FavoritesWithHook.handleClearAll true c s).2
    = Favorites.NoFavoritesYet
  ∧ Favorites.issued (FavoritesWithHook.handleClearAll true c s).2 = Favorites.issued s
  ∧ (faults (useFavorites.world c) = [] →
     loads (useFavorites.world (FavoritesWithHook.handleClearAll true c s).1) [])
  ∧ (∀ ids,
       faults (useFavorites.world c) = [true] →
       stored (useFavorites.world c) = Some (JSON_stringify (number_array ids)) →
       useFavorites.favorites
         (useFavorites.load_on_mount
            (useFavorites.initial
               (useFavorites.world (FavoritesWithHook.handleClearAll true c s).1))).2
       = number_array ids).
Proof.
  intros Hview. split; [done|].
  unfold FavoritesWithHook.handleClearAll. cbn [fst snd].
  assert (useFavorites.favorites (useFavorites.clearFavorites c).2 = JArray []
          ∧ useFavorites.world (useFavorites.clearFavorites c).2
            = (utils.clearFavorites (useFavorites.world c)).2) as [Hfav Hworld].
  { unfold useFavorites.clearFavorites, bind, useFavorites.lift, useFavorites.setFavorites.
    pose proof (clearFavorites_unfold (useFavorites.world c)) as Hu.
    destruct (utils.clearFavorites (useFavorites.world c)) as [r w'].
    by injection Hu as -> Hu. }
  split; [done|].
  change (Favorites.fetchFavoriteMovies [] [] (Favorites.handleClearAll s))
    with (Favorites.setLoading false (Favorites.handleClearAll s)).
  split.
  { unfold Favorites.render in *. cbn.
    destruct (Favorites.loading s); [done|].
    destruct (Favorites.error s) as [text|]; [|done].
    destruct (decide (text = "")) as [Hempty|Hfull]; [done|].
    discriminate Hview. }
  split; [done|]. split.
  - intros Hw. rewrite Hworld. by apply loads_after_clear.
  - intros ids Hf Hstored. rewrite Hworld, clearFavorites_unfold.
    unfold next_fault. rewrite Hf. cbn [fst snd].
    set (w' := logged clear_error "SecurityError" (with_faults [] (useFavorites.world c))).
    assert (faults w' = []) as Hw' by done.
    assert (loads w' ids) as Hl'.
    { unfold loads. rewrite (getFavorites_reliable _ Hw'). unfold decode.
      change (stored w') with (stored (useFavorites.world c)). rewrite Hstored.
      rewrite decide_False by apply JSON_stringify_array.
      by rewrite JSON_parse_stringify. }
    by destruct (load_on_mount_reliable w' ids Hw' Hl') as (_ & _ & ?).
Qed.

End compose_facts.

(** ** A user who waits for the response *)

Section waiting_facts.
Import movieService MoviesList.
Context {Num : JsNumber}.
Variable DEFAULT_PAGE_SIZE : number.

Lemma at_rest_or_waiting_step (s s' : State) (e : Event) :
  consistent s → at_rest_or_waiting s → (asks e = true → pending s = []) →
  step s e = Some s' → at_rest_or_waiting s'.
Proof.
  intros Hc Hs Hwait Hstep.
  destruct (step_cases s s' e Hc Hstep)
    as [[Hask [properties ->]]|[_ (request & o & -> & Hsettle)]].
  - right. destruct Hc as [Hfresh _]. rewrite replace_filters_spec by done.
    unfold latest_request. cbn [pending issued loading]. rewrite (Hwait Hask).
    rewrite length_app. cbn [length app]. split; [|done]. f_equal. lia.
  - left. apply settle_spec in Hsettle as (Hin & _ & Hp & Hl & _).
    split; [|done]. rewrite Hp.
    destruct Hs as [[Hnone _]|[Hone _]].
    + by rewrite Hnone.
    + rewrite Hone in *. apply list_elem_of_singleton in Hin. subst request.
      rewrite filter_cons, decide_False by (by intros ?). done.
Qed.

Lemma waited_run (events : list Event) (s0 s : State) :
  consistent s0 → at_rest_or_waiting s0 → waited s0 events →
  run s0 events = Some s → at_rest_or_waiting s.
Proof.
  revert s0. induction events as [|e events IH]; intros s0 Hc Hs Hw; simpl.
  - by intros [= <-].
  - destruct Hw as [Hwait Hrest].
    destruct (step s0 e) as [s1|] eqn:Hstep; [|done].
    apply IH; [by eapply step_consistent| |done].
    by eapply at_rest_or_waiting_step.
Qed.

(** X18.  What waiting buys.  If in a run from mounting the user acts only
    when no request is in flight, then at every moment at most one request
    is in flight, the one issued last, which asks for the current filters;
    the list shows as loading exactly while it is in flight; and a
    response that arrives always answers the current filters. *)
Theorem waiting_keeps_responses_current (events : list Event) (s : State) :
  run (mount DEFAULT_PAGE_SIZE) events = Some s →
  waited (mount DEFAULT_PAGE_SIZE) events →
  at_rest_or_waiting s
  ∧ (loading s = true ↔ pending s ≠ [])
  ∧ ∀ request o s',
      step s (Settled request o) = Some s' →
      issued s !! request = Some (getMovies_url (Some (props (filters s')))).
Proof.
  intros Hrun Hwait.
  assert (at_rest_or_waiting (mount DEFAULT_PAGE_SIZE)) as Hinit by (by right).
  pose proof (waited_run events _ s (mount_consistent DEFAULT_PAGE_SIZE) Hinit Hwait Hrun)
    as Hs.
  pose proof (run_consistent _ _ _ Hrun (mount_consistent DEFAULT_PAGE_SIZE))
    as [_ Hlast].
  split; [done|]. split.
  - destruct Hs as [[Hp Hl]|[Hp Hl]]; rewrite Hp, Hl; split; done.
  - intros request o s' Hstep. cbn [step] in Hstep.
    apply settle_spec in Hstep as (Hin & _ & _ & _ & Hf).
    destruct Hs as [[Hp _]|[Hp _]]; rewrite Hp in Hin.
    + by apply elem_of_nil in Hin.
    + apply list_elem_of_singleton in Hin. subst request.
      rewrite Hf. unfold latest_request. by rewrite <- last_lookup.
Qed.

End waiting_facts.

(** ** The further properties on concrete inputs *)

Section further_examples.
Import movieService.
Local Existing Instance integer_numbers.
Local Existing Instance reference_runtime.

Lemma isFavorite_after_update_witness :
  faults world_1_5_2 = [] ∧ loads world_1_5_2 [1; 5; 2]%Z
  ∧ (utils.isFavorite 7 (utils.addToFavorites 7 world_1_5_2).2).1 = Normal true.
Proof.
  assert (faults world_1_5_2 = []) as Hw by reflexivity.
  assert (loads world_1_5_2 [1; 5; 2]%Z) as Hl by (vm_compute; reflexivity).
  split; [exact Hw|]. split; [exact Hl|].
  exact (proj1 (isFavorite_after_update 7 5 world_1_5_2 [1; 5; 2]%Z Hw Hl)).
Defined.

Lemma hook_isFavorite_agrees_with_store_witness :
  faults world_1_5_2 = [] ∧ loads world_1_5_2 [1; 5; 2]%Z
  ∧ (utils.isFavorite 5
       (useFavorites.world
          (perform_all [Toggle 5; Add 7]
             (useFavorites.load_on_mount (useFavorites.initial world_1_5_2)).2))).1
    = (useFavorites.isFavorite 5
         (perform_all [Toggle 5; Add 7]
            (useFavorites.load_on_mount (useFavorites.initial world_1_5_2)).2)).1.
Proof.
  assert (faults world_1_5_2 = []) as Hw by reflexivity.
  assert (loads world_1_5_2 [1; 5; 2]%Z) as Hl by (vm_compute; reflexivity).
  split; [exact Hw|]. split; [exact Hl|].
  exact (proj2 (hook_isFavorite_agrees_with_store 5 world_1_5_2 [1; 5; 2]%Z
                  [Toggle 5; Add 7] Hw Hl)).
Defined.

Lemma failed_read_overwrites_store_witness :
  faults world_read_fails = [true; false]
  ∧ stored world_read_fails = Some "[1,5,2]"
  ∧ stored (utils.addToFavorites 7 world_read_fails).2 = Some "[7]".
Proof.
  assert (faults world_read_fails = [true; false]) as Hw by reflexivity.
  split; [exact Hw|]. split; [reflexivity|].
  exact (proj1 (proj2 (failed_read_overwrites_store 7 world_read_fails [] Hw))).
Defined.

Lemma add_present_is_silent_remove_rewrites_witness :
  faults world_1_5_2 = [] ∧ loads world_1_5_2 [1; 5; 2]%Z
  ∧ stored (utils.removeFromFavorites 7 world_1_5_2).2 = Some "[1,5,2]".
Proof.
  assert (faults world_1_5_2 = []) as Hw by reflexivity.
  assert (loads world_1_5_2 [1; 5; 2]%Z) as Hl by (vm_compute; reflexivity).
  split; [exact Hw|]. split; [exact Hl|].
  exact (proj1 (proj2 (add_present_is_silent_remove_rewrites 7 world_1_5_2 [1; 5; 2]%Z
                         Hw Hl))).
Defined.

Lemma favorites_extend_in_insertion_order_witness :
  in_sync (useFavorites.load_on_mount (useFavorites.initial world_5)).2 [5%Z]
  ∧ NoDup ([5; 7; 3]%Z)
  ∧ in_sync
      (perform_all [Add 7; Add 3]
         (useFavorites.load_on_mount (useFavorites.initial world_5)).2)
      [5; 7; 3]%Z.
Proof.
  assert (in_sync (useFavorites.load_on_mount (useFavorites.initial world_5)).2 [5%Z])
    as Hc by (vm_compute; repeat split; reflexivity).
  assert (NoDup ([5%Z] ++ [7; 3]%Z)) as Hnd
    by (apply (bool_decide_unpack _); vm_compute; exact I).
  split; [exact Hc|]. split; [exact Hnd|].
  exact (favorites_extend_in_insertion_order _ [5%Z] [7; 3]%Z Hc Hnd).
Defined.

Lemma stale_toggle_removes_witness :
  loads world_5 [5%Z]
  ∧ useFavorites.favorites (useFavorites.initial world_5) = number_array []
  ∧ in_sync (useFavorites.toggleFavorite 5 (useFavorites.initial world_5)).2 [].
Proof.
  assert (faults (useFavorites.world (useFavorites.initial world_5)) = []) as Hw
    by reflexivity.
  assert (loads (useFavorites.world (useFavorites.initial world_5)) [5%Z]) as Hl
    by (vm_compute; reflexivity).
  assert (useFavorites.favorites (useFavorites.initial world_5) = number_array [])
    as Hshown by reflexivity.
  assert (5%Z ∈ [5%Z]) as Hin by apply list_elem_of_here.
  assert (5%Z ∉ @nil Z) as Hout by apply not_elem_of_nil.
  split; [exact Hl|]. split; [exact Hshown|].
  exact (proj1 (proj2 (proj2 (stale_toggle_removes 5 (useFavorites.initial world_5)
                                [5%Z] [] Hw Hl Hshown Hin Hout)))).
Defined.

Lemma one_request_per_action_witness :
  MoviesList.run (MoviesList.mount 20%Z) comedy_shown
  = Some (default (MoviesList.mount 20%Z)
            (MoviesList.run (MoviesList.mount 20%Z) comedy_shown))
  ∧ length (MoviesList.issued
              (default (MoviesList.mount 20%Z)
                 (MoviesList.run (MoviesList.mount 20%Z) comedy_shown)))
    = 3.
Proof.
  assert (MoviesList.run (MoviesList.mount 20%Z) comedy_shown
          = Some (default (MoviesList.mount 20%Z)
                    (MoviesList.run (MoviesList.mount 20%Z) comedy_shown))) as Hrun
    by (vm_compute; reflexivity).
  split; [exact Hrun|].
  exact (one_request_per_action (Num := integer_numbers) 20%Z comedy_shown _ Hrun).
Defined.

Lemma superseded_response_clears_loading_witness :
  MoviesList.run (MoviesList.mount 20%Z) comedy_asked
  = Some (default (MoviesList.mount 20%Z)
            (MoviesList.run (MoviesList.mount 20%Z) comedy_asked))
  ∧ MoviesList.run (MoviesList.mount 20%Z)
      (comedy_asked ++ [MoviesList.Settled 1 (Fulfilled (one_page [drama_movie]))])
    = Some (default (MoviesList.mount 20%Z)
              (MoviesList.run (MoviesList.mount 20%Z)
                 (comedy_asked
                    ++ [MoviesList.Settled 1 (Fulfilled (one_page [drama_movie]))])))
  ∧ MoviesList.loading
      (default (MoviesList.mount 20%Z)
         (MoviesList.run (MoviesList.mount 20%Z)
            (comedy_asked
               ++ [MoviesList.Settled 1 (Fulfilled (one_page [drama_movie]))])))
    = false.
Proof.
  assert (MoviesList.run (MoviesList.mount 20%Z) comedy_asked
          = Some (default (MoviesList.mount 20%Z)
                    (MoviesList.run (MoviesList.mount 20%Z) comedy_asked))) as Hrun
    by (vm_compute; reflexivity).
  assert (MoviesList.step
            (default (MoviesList.mount 20%Z)
               (MoviesList.run (MoviesList.mount 20%Z) comedy_asked))
            (MoviesList.Settled 1 (Fulfilled (one_page [drama_movie])))
          = Some (default (MoviesList.mount 20%Z)
                    (MoviesList.run (MoviesList.mount 20%Z)
                       (comedy_asked
                          ++ [MoviesList.Settled 1 (Fulfilled (one_page [drama_movie]))]))))
    as Hstep by (vm_compute; reflexivity).
  assert (1 ≠ MoviesList.latest_request
                (default (MoviesList.mount 20%Z)
                   (MoviesList.run (MoviesList.mount 20%Z) comedy_asked))) as Hne
    by (vm_compute; discriminate).
  assert (MoviesList.latest_request
            (default (MoviesList.mount 20%Z)
               (MoviesList.run (MoviesList.mount 20%Z) comedy_asked))
          ∈ MoviesList.pending
              (default (MoviesList.mount 20%Z)
                 (MoviesList.run (MoviesList.mount 20%Z) comedy_asked))) as Hin
    by (vm_compute; apply list_elem_of_further, list_elem_of_here).
  split; [exact Hrun|]. split; [vm_compute; reflexivity|].
  exact (proj1 (proj2 (superseded_response_clears_loading (Num := integer_numbers) 20%Z
                         comedy_asked _ Hrun)
                  1 (Fulfilled (one_page [drama_movie])) _ Hstep Hne Hin)).
Defined.

Lemma error_outlives_late_success_witness :
  MoviesList.run (MoviesList.mount 20%Z) comedy_failed
  = Some (default (MoviesList.mount 20%Z)
            (MoviesList.run (MoviesList.mount 20%Z) comedy_failed))
  ∧ MoviesList.error
      (default (MoviesList.mount 20%Z)
         (MoviesList.run (MoviesList.mount 20%Z) comedy_failed))
    = Some "Network Error"
  ∧ 1 ∈ MoviesList.pending
          (default (MoviesList.mount 20%Z)
             (MoviesList.run (MoviesList.mount 20%Z) comedy_failed))
  ∧ ∃ s', MoviesList.step
            (default (MoviesList.mount 20%Z)
               (MoviesList.run (MoviesList.mount 20%Z) comedy_failed))
            (MoviesList.Settled 1 (Fulfilled (one_page [drama_movie]))) = Some s'
          ∧ MoviesList.movies s' = [drama_movie]
          ∧ MoviesList.render s' = MoviesList.ErrorMessage "Network Error".
Proof.
  assert (MoviesList.run (MoviesList.mount 20%Z) comedy_failed
          = Some (default (MoviesList.mount 20%Z)
                    (MoviesList.run (MoviesList.mount 20%Z) comedy_failed))) as Hrun
    by (vm_compute; reflexivity).
  assert (MoviesList.error
            (default (MoviesList.mount 20%Z)
               (MoviesList.run (MoviesList.mount 20%Z) comedy_failed))
          = Some "Network Error") as Herror by (vm_compute; reflexivity).
  assert (1 ∈ MoviesList.pending
                (default (MoviesList.mount 20%Z)
                   (MoviesList.run (MoviesList.mount 20%Z) comedy_failed))) as Hpending
    by (vm_compute; apply list_elem_of_here).
  split; [exact Hrun|]. split; [exact Herror|]. split; [exact Hpending|].
  destruct (error_outlives_late_success (Num := integer_numbers) 20%Z comedy_failed _ 1
              "Network Error" (one_page [drama_movie]) Hrun Herror Hpending)
    as (s' & Hstep & Hmovies & _ & Hview).
  exists s'. split; [exact Hstep|]. split; [exact Hmovies|exact Hview].
Defined.

Lemma panel_choice_in_query_witness :
  NoDup (keys drama_filters)
  ∧ params_named "genre" (MovieFiltersPanel.handleGenreChange drama_filters "Comedy")
    = [("genre", "Comedy")]
  ∧ params_named "page" (MovieFiltersPanel.handleDirectorChange drama_filters "")
    = [("page", "1")].
Proof.
  assert (NoDup (keys drama_filters)) as Hnd
    by (apply (bool_decide_unpack _); vm_compute; exact I).
  split; [exact Hnd|]. split.
  - exact (proj1 (proj1 (panel_choice_in_query (Num := integer_numbers) parseInt_decimal
                           drama_filters "Comedy" (0%Z, 10%Z) Hnd))).
  - exact (proj1 (proj2 (proj1 (proj2
             (panel_choice_in_query (Num := integer_numbers) parseInt_decimal
                drama_filters "" (0%Z, 10%Z) Hnd))))).
Defined.

Lemma every_query_is_paged_witness :
  MovieFiltersPanel.interact parseInt_decimal (MoviesList.mount 20%Z) browsing
  = Some (default (MoviesList.mount 20%Z)
            (MovieFiltersPanel.interact parseInt_decimal (MoviesList.mount 20%Z) browsing))
  ∧ MoviesList.issued
      (default (MoviesList.mount 20%Z)
         (MovieFiltersPanel.interact parseInt_decimal (MoviesList.mount 20%Z) browsing))
    = ["/movies?page=1&page_size=20";
       "/movies?page=1&page_size=20&genre=Drama";
       "/movies?page=1&page_size=20&genre=Drama&year=1999";
       "/movies?page=2&page_size=20&genre=Drama&year=1999";
       "/movies?page=1&page_size=20"]
  ∧ Forall (λ url,
              ∃ asked page,
                url = getMovies_url (Some asked)
                ∧ NoDup (keys asked)
                ∧ params_named "page_size" asked = [("page_size", "20")]
                ∧ params_named "page" asked = [("page", Number_toString page)])
           (MoviesList.issued
              (default (MoviesList.mount 20%Z)
                 (MovieFiltersPanel.interact parseInt_decimal (MoviesList.mount 20%Z)
                    browsing))).
Proof.
  assert (MovieFiltersPanel.interact parseInt_decimal (MoviesList.mount 20%Z) browsing
          = Some (default (MoviesList.mount 20%Z)
                    (MovieFiltersPanel.interact parseInt_decimal (MoviesList.mount 20%Z)
                       browsing))) as Hrun
    by (vm_compute; reflexivity).
  split; [exact Hrun|]. split; [vm_compute; reflexivity|].
  exact (every_query_is_paged (Num := integer_numbers) parseInt_decimal 20%Z browsing _
           Hrun).
Defined.

Lemma envelope_is_unwrapped_on_one_page_only_witness :
  "1" ≠ "" ∧ reference.parse_integer "1" = Some 1%Z
  ∧ Favorites.render
      (Favorites.fetchFavoriteMovies [1%Z]
         [(0, Fulfilled (Envelope true (Some first_movie)))] Favorites.initial)
    = Favorites.Grid [Plain first_movie]
  ∧ MovieDetail.render
      (MovieDetail.fetchMovie reference.parse_integer (Some "1")
         (Fulfilled (Envelope true (Some first_movie))) MovieDetail.initial)
    = MovieDetail.RenderThrows.
Proof.
  assert ("1" ≠ "") as Hne by discriminate.
  assert (reference.parse_integer "1" = Some 1%Z) as Hid by (vm_compute; reflexivity).
  split; [exact Hne|]. split; [exact Hid|].
  destruct (envelope_is_unwrapped_on_one_page_only reference.parse_integer 1 "1" 0
              (Envelope true (Some first_movie)) Hne Hid) as (_ & _ & _ & Henvelope & _).
  exact (Henvelope true first_movie eq_refl).
Defined.

Lemma formatDuration_tells_durations_apart_witness :
  safe_integer 0 ∧ safe_integer 125
  ∧ formatters.formatDuration 0 = "N/A"
  ∧ formatters.formatDuration 125 ≠ "N/A".
Proof.
  assert (safe_integer 0) as H0 by (unfold safe_integer; lia).
  assert (safe_integer 125) as H125 by (unfold safe_integer; lia).
  split; [exact H0|]. split; [exact H125|]. split.
  - apply (proj1 (formatDuration_tells_durations_apart 0 125 H0 H125)). lia.
  - intros Hna.
    apply (proj1 (formatDuration_tells_durations_apart 125 0 H125 H0)) in Hna. lia.
Defined.

Lemma favorites_operations_compose_witness :
  in_sync (useFavorites.load_on_mount (useFavorites.initial world_1_5_2)).2 [1; 5; 2]%Z
  ∧ in_sync
      (perform_all [Add 7; Remove 7]
         (useFavorites.load_on_mount (useFavorites.initial world_1_5_2)).2)
      [1; 5; 2]%Z.
Proof.
  assert (in_sync (useFavorites.load_on_mount (useFavorites.initial world_1_5_2)).2
            [1; 5; 2]%Z) as Hc by (vm_compute; repeat split; reflexivity).
  split; [exact Hc|].
  apply (proj1 (favorites_operations_compose 7 9 _ [1; 5; 2]%Z Hc)).
  apply (bool_decide_unpack _). vm_compute. exact I.
Defined.

Lemma clear_all_outcomes_witness :
  Favorites.render one_favourite_shown = Favorites.Grid [Plain first_movie]
  ∧ Favorites.render
      (FavoritesWithHook.handleClearAll true (useFavorites.initial world_removal_fails)
         one_favourite_shown).2
    = Favorites.NoFavoritesYet
  ∧ useFavorites.favorites
      (useFavorites.load_on_mount
         (useFavorites.initial
            (useFavorites.world
               (FavoritesWithHook.handleClearAll true
                  (useFavorites.initial world_removal_fails) one_favourite_shown).1))).2
    = number_array [5%Z].
Proof.
  assert (Favorites.render one_favourite_shown = Favorites.Grid [Plain first_movie])
    as Hview by (vm_compute; reflexivity).
  split; [exact Hview|].
  destruct (clear_all_outcomes (useFavorites.initial world_removal_fails)
              one_favourite_shown [Plain first_movie] Hview)
    as (_ & _ & Hempty & _ & _ & Hback).
  split; [exact Hempty|].
  apply Hback; vm_compute; reflexivity.
Defined.

Lemma waiting_keeps_responses_current_witness :
  MoviesList.run (MoviesList.mount 20%Z) drama_failed
  = Some (default (MoviesList.mount 20%Z)
            (MoviesList.run (MoviesList.mount 20%Z) drama_failed))
  ∧ waited (MoviesList.mount 20%Z) drama_failed
  ∧ at_rest_or_waiting
      (default (MoviesList.mount 20%Z)
         (MoviesList.run (MoviesList.mount 20%Z) drama_failed)).
Proof.
  assert (MoviesList.run (MoviesList.mount 20%Z) drama_failed
          = Some (default (MoviesList.mount 20%Z)
                    (MoviesList.run (MoviesList.mount 20%Z) drama_failed))) as Hrun
    by (vm_compute; reflexivity).
  assert (waited (MoviesList.mount 20%Z) drama_failed) as Hwait
    by (cbn; repeat split; first [reflexivity | discriminate]).
  split; [exact Hrun|]. split; [exact Hwait|].
  exact (proj1 (waiting_keeps_responses_current (Num := integer_numbers) 20%Z
                  drama_failed _ Hrun Hwait)).
Defined.

End further_examples.
